(** * Error control: computing convergence rates

    A shallow embedding of [chapter4/convergence.ipynb]: the manufactured
    Poisson problem [solve_poisson], the two error evaluators [error_L2]
    and [error_infinity], the convergence-study loops and the pairwise
    log-ratio [rates].

    - Numbers are IEEE binary64 values (numpy's [float64], Rocq's primitive
      [float]); a numpy array of rank one is a [list float].  [Es] has the
      dtype [PETSc.ScalarType], taken to be [float64] (a real build).
    - A Python call returns a value or raises: [outcome].
    - The [dolfinx.fem.Function] objects the notebook creates and writes to
      live in a heap and are passed by reference; a cell is a function of
      the heap: [Py].  A form and a boundary condition hold the state their
      function has when they are built; no cell writes to a function
      between building a form and assembling it.
    - The notebook runs on every rank of an MPI communicator; what a rank
      holds locally is a function of the rank: [dist].
    - What the notebook imports and does not define is a parameter: the
      mathematical library in [Libm], the finite-element library in
      [Dolfinx].
    - [print] is left out. *)

From Stdlib Require Import Reals Lra Floats ZArith Lia String.
From stdpp Require Import base option list.

Close Scope R_scope.

Set Default Proof Using "Type".

(** ** Python outcomes *)

(** The exceptions a cell can end with.  The first group is raised by the
    interpreter and numpy.  The second group lists the error kinds that the
    specification names; no cell of the notebook defines or raises them. *)
Inductive exn : Type :=
| ValueError
| TypeError
| IndexError
| ZeroDivisionError
| OverflowError
| RuntimeError
| UnsupportedExactRepresentation
| DegenerateSample
| UnorderedSampleSequence
| SolverOracleFailure.

Inductive outcome (A : Type) : Type :=
| Return (a : A)
| Raise (e : exn).
Arguments Return {A} a.
Arguments Raise {A} e.

#[global] Instance outcome_ret : MRet outcome := fun A a => Return a.
#[global] Instance outcome_bind : MBind outcome := fun A B k m =>
  match m with
  | Return a => k a
  | Raise e => Raise e
  end.

(** [mapO f l] runs [f] on the elements of [l] from left to right and stops
    at the first exception. *)
Fixpoint mapO {A B : Type} (f : A -> outcome B) (l : list A) : outcome (list B) :=
  match l with
  | [] => Return []
  | a :: l' => b ← f a; bs ← mapO f l'; Return (b :: bs)
  end.

(** ** The C mathematical library *)

Class Libm : Type := {
  libm_log : float -> float;
  libm_cos : float -> float
}.

(** ** numpy on rank-one [float64] arrays *)

Module np.

Definition pi : float := 0x1.921fb54442d18p+1%float.

Definition zeros (n : nat) : list float := replicate n 0%float.

(** Element-wise binary operations broadcast their operands: equal
    shapes pair up, a one-element operand is stretched, anything else is
    a [ValueError]. *)
Definition broadcast2 (f : float -> float -> float) (a b : list float)
  : outcome (list float) :=
  if decide (length a = length b) then Return (zip_with f a b)
  else match a, b with
       | [x], _ => Return (f x <$> b)
       | _, [y] => Return ((fun x => f x y) <$> a)
       | _, _ => Raise ValueError
       end.

Definition divide : list float -> list float -> outcome (list float) :=
  broadcast2 PrimFloat.div.
Definition subtract : list float -> list float -> outcome (list float) :=
  broadcast2 PrimFloat.sub.
Definition multiply : list float -> list float -> outcome (list float) :=
  broadcast2 PrimFloat.mul.

(** [c * a] for a Python float [c]. *)
Definition scale (c : float) (a : list float) : list float :=
  PrimFloat.mul c <$> a.

Definition absolute (a : list float) : list float := PrimFloat.abs <$> a.
Definition log `{Libm} (a : list float) : list float := libm_log <$> a.
Definition cos `{Libm} (a : list float) : list float := libm_cos <$> a.
Definition sqrt (x : float) : float := PrimFloat.sqrt x.

(** [np.maximum] hands back a NaN operand. *)
Definition maximum (a b : float) : float :=
  if is_nan a then a
  else if is_nan b then b
  else if (a <? b)%float then b else a.

(** [np.max] has no identity: the empty array is a [ValueError]. *)
Definition max (a : list float) : outcome float :=
  match a with
  | [] => Raise ValueError
  | x :: xs => Return (foldl maximum x xs)
  end.

(** The slices [a[1:]] and [a[:-1]]. *)
Definition tail_slice (a : list float) : list float := drop 1 a.
Definition init_slice (a : list float) : list float := take (length a - 1) a.

(** [dst[:] = src]: [src] is broadcast to the shape of [dst]. *)
Definition assign_all (dst src : list float) : outcome (list float) :=
  if decide (length src = length dst) then Return src
  else match src with
       | [x] => Return (replicate (length dst) x)
       | _ => Raise ValueError
       end.

End np.

(** ** The rate computation

    [rates = np.log(Es[1:]/Es[:-1])/np.log(hs[1:]/hs[:-1])]

    The notebook leaves numpy's error state at its default: a division by
    zero or an invalid operation warns and yields an infinity or a NaN. *)
Definition rates `{Libm} (Es hs : list float) : outcome (list float) :=
  qE ← np.divide (np.tail_slice Es) (np.init_slice Es);
  qh ← np.divide (np.tail_slice hs) (np.init_slice hs);
  np.divide (np.log qE) (np.log qh).

(** ** MPI: communicators and collective reductions *)

(** A communicator has the ranks [0 .. comm_last].  A value that every
    rank holds a copy of (a local array, a local integral) is a function of
    the rank. *)
Record Comm : Type := { comm_last : nat }.

Definition dist (A : Type) : Type := nat -> A.

Definition comm_ranks (c : Comm) : list nat := seq 0 (S (comm_last c)).

Module MPI.

(** mpi4py reduces Python objects with these two functions.  [MAX] keeps
    its first operand unless the second one is larger: a NaN is kept as
    first operand and dropped as second. *)
Definition SUM (x y : float) : float := (x + y)%float.
Definition MAX (x y : float) : float := if (x <? y)%float then y else x.

(** [comm.allreduce(v, op)]: every rank receives the reduction of the local
    values.  The call does not fix the order in which they are combined;
    here they are folded in rank order.  mpi4py combines Python objects
    pairwise, which from four ranks on can round a sum differently and
    keep another operand of a maximum with a NaN; what is proved of a
    reduction below holds for either order, or is stated for one rank. *)
Definition allreduce (c : Comm) (v : dist float) (op : float -> float -> float)
  : float :=
  foldl op (v 0) (v <$> seq 1 (comm_last c)).

End MPI.

(** [on_ranks d c f] runs the rank-local computation [f] on every rank of
    [c] and gives the outcome of the run as a whole: the run fails when
    one rank raises, with the exception of the lowest such rank.  On a
    communicator of several ranks the other ranks do not see that
    exception, they wait in the next collective call; only on one rank
    is a [Raise] the outcome of the call itself.  Ranks outside [c]
    hold [d]. *)
Definition on_ranks {A : Type} (d : A) (c : Comm) (f : nat -> outcome A)
  : outcome (dist A) :=
  vs ← mapO f (comm_ranks c);
  Return (fun r => default d (vs !! r)).

(** ** Meshes, function spaces, functions *)

Record Mesh : Type := { mesh_comm : Comm; mesh_nx : Z; mesh_ny : Z }.

(** [mesh.topology.dim] of a mesh of the unit square. *)
Definition topology_dim (_ : Mesh) : Z := 2.

(** [FunctionSpace(mesh, (family, degree))] *)
Record FunctionSpace : Type := {
  fs_mesh : Mesh;
  fs_family : string;
  fs_degree : Z
}.

(** A [dolfinx.fem.Function]: its space and, on every rank, the local array
    of degree-of-freedom coefficients [x.array]. *)
Record Function : Type := {
  function_space : FunctionSpace;
  x_array : dist (list float)
}.

(** A point array of shape [(3, n)], one row per coordinate. *)
Definition points : Type := list (list float).

Definition shape1 (x : points) : nat :=
  match x with
  | [] => 0
  | row :: _ => length row
  end.

(** ** UFL: symbolic expressions and forms *)

Inductive ufl_expr : Type :=
| FloatValue (c : float)
| SpatialCoordinate (m : Mesh)
| Indexed (e : ufl_expr) (i : nat)
| Product (a b : ufl_expr)
| Cos (a : ufl_expr)
| Neg (a : ufl_expr)
| Grad (a : ufl_expr)
| Div (a : ufl_expr)
| Inner (a b : ufl_expr)
| TrialFunction (V : FunctionSpace)
| TestFunction (V : FunctionSpace)
| Coefficient (f : Function).

(** [integrand * dx] *)
Inductive ufl_form : Type :=
| Integral (integrand : ufl_expr).

(** [dolfinx.fem.Expression(e, X)]: the expression [e] compiled for
    evaluation at the reference points [X]. *)
Record Expression : Type := {
  expr_ufl : ufl_expr;
  expr_points : points
}.

(** ** Python values an exact solution can be passed as *)

Inductive pyval : Type :=
| PyUfl (e : ufl_expr)
| PyCallable (f : points -> outcome (list float))
| PyExpression (e : Expression)
| PyFloat (c : float)
| PyStr (s : string)
| PyNone.

(** [isinstance(v, ufl.core.expr.Expr)] *)
Definition isinstance_Expr (v : pyval) : bool :=
  match v with
  | PyUfl _ => true
  | _ => false
  end.

(** [dirichletbc(u_bc, dofs)] *)
Record DirichletBC : Type := {
  bc_value : Function;
  bc_dofs : dist (list Z)
}.

(** ** The finite-element library

    Every entry is a function of its arguments alone: the library keeps no
    state between calls. *)
Class Dolfinx : Type := {
  MPI_COMM_WORLD : Comm;
  (** [create_unit_square(comm, nx, ny)] *)
  create_unit_square : Comm -> Z -> Z -> outcome Mesh;
  (** building the element and the dof map of a space *)
  fem_element : Mesh -> string -> Z -> outcome unit;
  (** number of local coefficients of a space on a rank *)
  fem_local_size : FunctionSpace -> dist nat;
  (** [V.element.interpolation_points] *)
  fem_interpolation_points : FunctionSpace -> points;
  (** the coefficients [u.interpolate(v)] writes for [u] in the space [V] *)
  fem_interpolate : FunctionSpace -> pyval -> outcome (dist (list float));
  (** [assemble_scalar(form(M))], the local contribution of every rank *)
  fem_assemble_scalar : ufl_form -> outcome (dist float);
  (** [locate_entities_boundary(mesh, dim, marker)] *)
  locate_entities_boundary : Mesh -> Z -> (points -> list bool) -> outcome (dist (list Z));
  (** [locate_dofs_topological(V, dim, entities)] *)
  locate_dofs_topological : FunctionSpace -> Z -> dist (list Z) -> outcome (dist (list Z));
  (** the coefficients [LinearProblem(a, L, bcs, petsc_options).solve()] computes *)
  fem_solve : ufl_form -> ufl_form -> list DirichletBC -> list (string * string)
              -> outcome (dist (list float))
}.

(** ** The heap and the monad of cells *)

Definition loc : Type := nat.
Definition heap : Type := list Function.

Definition Py (A : Type) : Type := heap -> outcome (A * heap).

#[global] Instance Py_ret : MRet Py := fun A a h => Return (a, h).
#[global] Instance Py_bind : MBind Py := fun A B k m h =>
  match m h with
  | Return (a, h') => k a h'
  | Raise e => Raise e
  end.

Definition lift {A : Type} (o : outcome A) : Py A := fun h =>
  match o with
  | Return a => Return (a, h)
  | Raise e => Raise e
  end.

Definition alloc (f : Function) : Py loc := fun h => Return (length h, h ++ [f]).

Definition deref (l : loc) : Py Function := fun h =>
  match h !! l with
  | Some f => Return (f, h)
  | None => Raise RuntimeError
  end.

Definition assign (l : loc) (f : Function) : Py unit := fun h =>
  Return (tt, <[l := f]> h).

(** Python's [for x in xs: s = body(s, x)]. *)
Fixpoint for_each {A S : Type} (xs : list A) (body : S -> A -> Py S) (s : S) : Py S :=
  match xs with
  | [] => mret s
  | x :: xs' => s' ← body s x; for_each xs' body s'
  end.

(** [enumerate(xs)] *)
Definition enumerate {A : Type} (xs : list A) : list (nat * A) := imap pair xs.

(** ** Python numbers and indexing *)

(** [float(n)] for an [int]: correctly rounded, [OverflowError] beyond the
    binary64 range. *)
Definition py_float (n : Z) : outcome float :=
  let f := SF2Prim (binary_normalize prec emax n 0 false) in
  if is_infinity f then Raise OverflowError else Return f.

(** [x / y] on Python floats. *)
Definition py_truediv (x y : float) : outcome float :=
  if (y =? 0)%float then Raise ZeroDivisionError else Return (x / y)%float.

(** [xs[i]] *)
Definition getitem {A : Type} (xs : list A) (i : nat) : outcome A :=
  match xs !! i with
  | Some x => Return x
  | None => Raise IndexError
  end.

(** [a[i] = v] *)
Definition setitem (a : list float) (i : nat) (v : float) : outcome (list float) :=
  if decide (i < length a) then Return (<[i := v]> a) else Raise IndexError.

(** ** The manufactured solution

    [def u_ex(mod): return lambda x:
       mod.cos(2*mod.pi*x[0])*mod.cos(2*mod.pi*x[1])]

    The module argument is what the body uses of it: [cos], [pi], and how the
    operands it produces are indexed and multiplied. *)
Record pymodule (X T : Type) : Type := {
  mod_cos : T -> T;
  mod_pi : float;
  mod_getitem : X -> nat -> outcome T;
  mod_rmul : float -> T -> T;
  mod_mul : T -> T -> outcome T
}.
Arguments mod_cos {X T}.
Arguments mod_pi {X T}.
Arguments mod_getitem {X T}.
Arguments mod_rmul {X T}.
Arguments mod_mul {X T}.

Definition u_ex {X T : Type} (md : pymodule X T) : X -> outcome T := fun x =>
  x0 ← mod_getitem md x 0;
  x1 ← mod_getitem md x 1;
  mod_mul md
    (mod_cos md (mod_rmul md (2 * mod_pi md)%float x0))
    (mod_cos md (mod_rmul md (2 * mod_pi md)%float x1)).

Definition numpy_module `{Libm} : pymodule points (list float) := {|
  mod_cos := np.cos;
  mod_pi := np.pi;
  mod_getitem := getitem;
  mod_rmul := np.scale;
  mod_mul := np.multiply
|}.

Definition ufl_module : pymodule ufl_expr ufl_expr := {|
  mod_cos := Cos;
  mod_pi := np.pi;
  mod_getitem := fun x i => Return (Indexed x i);
  mod_rmul := fun c e => Product (FloatValue c) e;
  mod_mul := fun a b => Return (Product a b)
|}.

(** [u_numpy = u_ex(np)] and [u_ufl = u_ex(ufl)] *)
Definition u_numpy `{Libm} : points -> outcome (list float) := u_ex numpy_module.
Definition u_ufl : ufl_expr -> outcome ufl_expr := u_ex ufl_module.

(** ** The notebook *)

Section Notebook.

Context `{Libm} `{Dolfinx}.

(** [FunctionSpace(mesh, (family, degree))] *)
Definition FunctionSpace_new (mesh : Mesh) (family : string) (degree : Z)
  : Py FunctionSpace :=
  lift (fem_element mesh family degree);;
  mret {| fs_mesh := mesh; fs_family := family; fs_degree := degree |}.

(** [Function(V)]: a new function with zero coefficients. *)
Definition Function_new (V : FunctionSpace) : Py loc :=
  alloc {| function_space := V;
           x_array := fun r => np.zeros (fem_local_size V r) |}.

(** [u.interpolate(v)] overwrites the coefficients of [u]. *)
Definition interpolate (u : loc) (v : pyval) : Py unit :=
  fu ← deref u;
  arr ← lift (fem_interpolate (function_space fu) v);
  assign u {| function_space := function_space fu; x_array := arr |}.

(** [LinearProblem(a, L, bcs=bcs, petsc_options=opts).solve()] for a
    bilinear form [a] whose trial space is [V]: the solution is a new
    function of [V]. *)
Definition LinearProblem_solve (V : FunctionSpace) (a L : ufl_form)
    (bcs : list DirichletBC) (opts : list (string * string)) : Py loc :=
  arr ← lift (fem_solve a L bcs opts);
  alloc {| function_space := V; x_array := arr |}.

(** [def solve_poisson(N=10, degree=1)] *)
Definition solve_poisson (N : Z) (degree : Z) : Py (loc * ufl_expr) :=
  mesh ← lift (create_unit_square MPI_COMM_WORLD N N);
  let x := SpatialCoordinate mesh in
  ue ← lift (u_ufl x);
  let f := Neg (Div (Grad ue)) in
  V ← FunctionSpace_new mesh "CG" degree;
  let u := TrialFunction V in
  let v := TestFunction V in
  let a := Integral (Inner (Grad u) (Grad v)) in
  let L := Integral (Product f v) in
  u_bc ← Function_new V;
  interpolate u_bc (PyCallable u_numpy);;
  facets ← lift (locate_entities_boundary mesh (topology_dim mesh - 1)
                   (fun x => replicate (shape1 x) true));
  dofs ← lift (locate_dofs_topological V (topology_dim mesh - 1) facets);
  f_bc ← deref u_bc;
  let bcs := [ {| bc_value := f_bc; bc_dofs := dofs |} ] in
  uh ← LinearProblem_solve V a L bcs
         [("ksp_type", "preonly"); ("pc_type", "lu")]%string;
  ret ← lift (u_ufl x);
  mret (uh, ret).

(** [def error_L2(uh, u_ex, degree_raise=3)] *)
Definition error_L2 (uh : loc) (u_ex : pyval) (degree_raise : Z) : Py float :=
  (* Create higher order function space *)
  f_uh ← deref uh;
  let degree := fs_degree (function_space f_uh) in
  let family := fs_family (function_space f_uh) in
  let mesh := fs_mesh (function_space f_uh) in
  W ← FunctionSpace_new mesh family (degree + degree_raise);
  (* Interpolate approximate solution *)
  u_W ← Function_new W;
  interpolate u_W (PyUfl (Coefficient f_uh));;
  (* Interpolate exact solution, special handling if exact solution
     is a ufl expression or a python lambda function *)
  u_ex_W ← Function_new W;
  match u_ex with
  | PyUfl e =>
      let u_expr := {| expr_ufl := e;
                       expr_points := fem_interpolation_points W |} in
      interpolate u_ex_W (PyExpression u_expr)
  | _ => interpolate u_ex_W u_ex
  end;;
  (* Compute the error in the higher order function space *)
  e_W ← Function_new W;
  f_u_W ← deref u_W;
  f_u_ex_W ← deref u_ex_W;
  f_e_W ← deref e_W;
  diff ← lift (on_ranks [] (mesh_comm mesh) (fun r =>
            d ← np.subtract (x_array f_u_W r) (x_array f_u_ex_W r);
            np.assign_all (x_array f_e_W r) d));
  assign e_W {| function_space := function_space f_e_W; x_array := diff |};;
  (* Integrate the error *)
  f_e_W ← deref e_W;
  let error := Integral (Inner (Coefficient f_e_W) (Coefficient f_e_W)) in
  error_local ← lift (fem_assemble_scalar error);
  let error_global := MPI.allreduce (mesh_comm mesh) error_local MPI.SUM in
  mret (np.sqrt error_global).

(** [def error_infinity(u_h, u_ex)] *)
Definition error_infinity (u_h : loc) (u_ex : pyval) : Py float :=
  (* Interpolate exact solution, special handling if exact solution
     is a ufl expression or a python lambda function *)
  f_u_h ← deref u_h;
  let comm := mesh_comm (fs_mesh (function_space f_u_h)) in
  u_ex_V ← Function_new (function_space f_u_h);
  match u_ex with
  | PyUfl e =>
      let u_expr :=
        {| expr_ufl := e;
           expr_points := fem_interpolation_points (function_space f_u_h) |} in
      interpolate u_ex_V (PyExpression u_expr)
  | _ => interpolate u_ex_V u_ex
  end;;
  (* Compute infinity norm, first local to process, then gather the max
     value over all processes *)
  f_u_h ← deref u_h;
  f_u_ex_V ← deref u_ex_V;
  error_max_local ← lift (on_ranks 0%float comm (fun r =>
      d ← np.subtract (x_array f_u_h r) (x_array f_u_ex_V r);
      np.max (np.absolute d)));
  let error_max := MPI.allreduce comm error_max_local MPI.MAX in
  mret error_max.

(** *** The convergence studies

    The three study cells run the same loop; they differ in the
    evaluator and the degree.  The loop is written once, over the
    solver [solve] and the evaluator [evaluate] it calls:

    [Es = np.zeros(len(Ns)); hs = np.zeros(len(Ns))
     for i, N in enumerate(Ns):
         uh, u_ex = solve(N, degree=degree)
         Es[i] = evaluate(uh, u_numpy)
         hs[i] = 1./Ns[i]] *)
Definition study_body (solve : Z -> Z -> Py (loc * ufl_expr))
    (evaluate : loc -> pyval -> Py float) (degree : Z) (Ns : list Z)
    (st : list float * list float) (iN : nat * Z)
  : Py (list float * list float) :=
  let '(Es, hs) := st in
  let '(i, N) := iN in
  '(uh, u_ex) ← solve N degree;
  E ← evaluate uh (PyCallable u_numpy);
  Es ← lift (setitem Es i E);
  Ni ← lift (getitem Ns i);
  fNi ← lift (py_float Ni);
  h ← lift (py_truediv 1 fNi);
  hs ← lift (setitem hs i h);
  mret (Es, hs).

Definition study_loop (solve : Z -> Z -> Py (loc * ufl_expr))
    (evaluate : loc -> pyval -> Py float) (degree : Z) (Ns : list Z)
  : Py (list float * list float) :=
  let Es := np.zeros (length Ns) in
  let hs := np.zeros (length Ns) in
  for_each (enumerate Ns) (study_body solve evaluate degree Ns) (Es, hs).

Definition Ns : list Z := [4; 8; 16; 32; 64]%Z.
Definition degrees : list Z := [1; 2; 3; 4]%Z.

(** The default [degree_raise=3] of [error_L2]. *)
Definition error_L2_default (uh : loc) (u_ex : pyval) : Py float :=
  error_L2 uh u_ex 3.

(** The first study: [Es[i] = error_L2(uh, u_numpy)] at degree 1, and the
    cell after it, which computes [rates] from [Es] and [hs]. *)
Definition study_L2_degree1 : Py (list float * list float) :=
  study_loop solve_poisson error_L2_default 1 Ns.

Definition rates_L2_degree1 : Py (list float) :=
  '(Es, hs) ← study_L2_degree1;
  lift (rates Es hs).

(** [for degree in degrees: ...; rates = ...]: the rates of every degree,
    in order. *)
Definition study_degrees (solve : Z -> Z -> Py (loc * ufl_expr))
    (evaluate : loc -> pyval -> Py float) : Py (list (list float)) :=
  for_each degrees (fun acc degree =>
    '(Es, hs) ← study_loop solve evaluate degree Ns;
    r ← lift (rates Es hs);
    mret (acc ++ [r])) [].

(** The second study: [error_L2(uh, u_numpy, degree_raise=3)]. *)
Definition study_L2 : Py (list (list float)) :=
  study_degrees solve_poisson (fun uh u => error_L2 uh u 3).

(** The third study: [error_infinity(uh, u_numpy)]. *)
Definition study_infinity : Py (list (list float)) :=
  study_degrees solve_poisson error_infinity.

End Notebook.

(** * Reference forms

    Closed forms of what the cells compute, used to state the properties
    below. *)

(** The entries [rates] computes when it returns. *)
Definition log_ratio `{Libm} (qE qh : float) : float :=
  (libm_log qE / libm_log qh)%float.

Definition rate_entries `{Libm} (Es hs : list float) : list float :=
  zip_with log_ratio
    (zip_with PrimFloat.div (np.tail_slice Es) (np.init_slice Es))
    (zip_with PrimFloat.div (np.tail_slice hs) (np.init_slice hs)).

(** The rate between two consecutive experiments as the text of the
    notebook derives it, over the real numbers:
    [r = ln(E_i / E_{i-1}) / ln(h_i / h_{i-1})]. *)
Definition exact_rate (Ep Ei hp hi : R) : R := (ln (Ei / Ep) / ln (hi / hp))%R.

(** The expression [u_ufl(x)] builds. *)
Definition manufactured_expr (x : ufl_expr) : ufl_expr :=
  Product (Cos (Product (FloatValue (2 * np.pi)%float) (Indexed x 0)))
          (Cos (Product (FloatValue (2 * np.pi)%float) (Indexed x 1))).

Section Reference.

Context `{Libm} `{Dolfinx}.

(** [Function(V)] before anything is written to it. *)
Definition zero_function (V : FunctionSpace) : Function :=
  {| function_space := V; x_array := fun r => np.zeros (fem_local_size V r) |}.

(** What an evaluator hands to [interpolate] for the exact solution: a
    symbolic expression is compiled for the interpolation points of the
    target space, anything else is passed as it is. *)
Definition interpolation_source (V : FunctionSpace) (u_ex : pyval) : pyval :=
  match u_ex with
  | PyUfl e =>
      PyExpression {| expr_ufl := e; expr_points := fem_interpolation_points V |}
  | _ => u_ex
  end.

(** [np.max(np.abs(a - b))] on one rank. *)
Definition local_max_error (a b : list float) : outcome float :=
  d ← np.subtract a b;
  np.max (np.absolute d).

(** The value of [error_infinity] for the function [f] once the exact
    solution has the coefficients [arr]. *)
Definition infinity_value (f : Function) (arr : dist (list float)) : outcome float :=
  let comm := mesh_comm (fs_mesh (function_space f)) in
  error_max_local ← on_ranks 0%float comm (fun r => local_max_error (x_array f r) (arr r));
  Return (MPI.allreduce comm error_max_local MPI.MAX).

(** The space [error_L2] compares in. *)
Definition raised_space (V : FunctionSpace) (degree_raise : Z) : FunctionSpace :=
  {| fs_mesh := fs_mesh V;
     fs_family := fs_family V;
     fs_degree := fs_degree V + degree_raise |}.

(** The coefficients of [e_W] from those of [u_W] and [u_ex_W]. *)
Definition difference_array (W : FunctionSpace) (arr_u arr_ex : dist (list float))
  : outcome (dist (list float)) :=
  on_ranks [] (mesh_comm (fs_mesh W)) (fun r =>
    d ← np.subtract (arr_u r) (arr_ex r);
    np.assign_all (np.zeros (fem_local_size W r)) d).

(** The value of [error_L2] once [e_W] has the coefficients [diff]. *)
Definition L2_value (W : FunctionSpace) (diff : dist (list float)) : outcome float :=
  let e_W := {| function_space := W; x_array := diff |} in
  error_local ← fem_assemble_scalar (Integral (Inner (Coefficient e_W) (Coefficient e_W)));
  Return (np.sqrt (MPI.allreduce (mesh_comm (fs_mesh W)) error_local MPI.SUM)).

(** The value a cell returns, without the heap it leaves. *)
Definition value_of {A : Type} (o : outcome (A * heap)) : outcome A :=
  match o with
  | Return (a, _) => Return a
  | Raise e => Raise e
  end.

(** The two functions [solve_poisson] allocates ([u_bc], then [uh]) and
    the expression it returns with [uh]. *)
Definition poisson_solution (N degree : Z) : outcome (Function * Function * ufl_expr) :=
  mesh ← create_unit_square MPI_COMM_WORLD N N;
  let x := SpatialCoordinate mesh in
  ue ← u_ufl x;
  let f := Neg (Div (Grad ue)) in
  _ ← fem_element mesh "CG" degree;
  let V := {| fs_mesh := mesh; fs_family := "CG"; fs_degree := degree |} in
  let a := Integral (Inner (Grad (TrialFunction V)) (Grad (TestFunction V))) in
  let L := Integral (Product f (TestFunction V)) in
  arr_bc ← fem_interpolate V (PyCallable u_numpy);
  let f_bc := {| function_space := V; x_array := arr_bc |} in
  facets ← locate_entities_boundary mesh (topology_dim mesh - 1)
             (fun x => replicate (shape1 x) true);
  dofs ← locate_dofs_topological V (topology_dim mesh - 1) facets;
  arr ← fem_solve a L [ {| bc_value := f_bc; bc_dofs := dofs |} ]
          [("ksp_type", "preonly"); ("pc_type", "lu")]%string;
  ret ← u_ufl x;
  Return (f_bc, {| function_space := V; x_array := arr |}, ret).

(** Calling a cell twice in a row, and calling it once. *)
Definition twice {A : Type} (m : Py A) : Py (A * A) :=
  a ← m; b ← m; mret (a, b).

Definition once {A : Type} (m : Py A) : Py (A * A) :=
  a ← m; mret (a, a).

(** A call into the library ends with the exception [e]. *)
Definition library_raises (e : exn) : Prop :=
  (exists mesh family degree, fem_element mesh family degree = Raise e) \/
  (exists V v, fem_interpolate V v = Raise e) \/
  (exists M, fem_assemble_scalar M = Raise e).

(** A cell that only allocates: its value is the same from every heap,
    and it leaves the heap it started from with new objects appended. *)
Definition heap_local {A : Type} (m : Py A) : Prop :=
  exists p : outcome (A * list Function),
    forall h, m h = '(a, new) ← p; Return (a, h ++ new).

(** An evaluator that reads the function it is given and, beyond that,
    only allocates. *)
Definition reads_only_argument (evaluate : loc -> pyval -> Py float) : Prop :=
  forall (f : Function) (u : pyval),
    exists p : outcome (float * list Function),
      forall uh h, h !! uh = Some f ->
        evaluate uh u h = '(v, new) ← p; Return (v, h ++ new).

(** [solve_poisson] with the expression it returns replaced by [other]. *)
Definition solve_discarding (other : ufl_expr) (N degree : Z) : Py (loc * ufl_expr) :=
  '(uh, _) ← solve_poisson N degree;
  mret (uh, other).

(** An evaluator made to compare with [u_numpy] whatever it is given. *)
Definition against_u_numpy (evaluate : loc -> pyval -> Py float)
  : loc -> pyval -> Py float :=
  fun uh _ => evaluate uh (PyCallable u_numpy).

End Reference.

(** ** IEEE comparison on specification floats *)

Definition sf_is_nan (s : spec_float) : bool :=
  match s with
  | S754_nan => true
  | _ => false
  end.

(** [s] is below or equal to [t]; false as soon as one of them is a NaN. *)
Definition sf_le (s t : spec_float) : Prop :=
  SFcompare s t = Some Lt \/ SFcompare s t = Some Eq.

(** The same on binary64 values, and "is a number". *)
Definition fle (x y : float) : Prop := (x <=? y)%float = true.
Definition number (x : float) : Prop := is_nan x = false.

(** An operation that picks the larger of two numbers. *)
Definition max_like (op : float -> float -> float) : Prop :=
  forall a b, number a -> number b ->
    fle a (op a b) /\ fle b (op a b) /\ (op a b = a \/ op a b = b).

(** * A small platform to run the cells on

    An instance of [Libm] and of [Dolfinx] made of a few lines of float
    arithmetic, so that the cells can be evaluated on concrete inputs.
    Nothing below is assumed of the real libraries. *)

Module Bench.

(** [float(n)] without the overflow check. *)
Definition of_Z (n : Z) : float := SF2Prim (binary_normalize prec emax n 0 false).

(** The logarithm in base two, bit by bit: the exponent gives the integer
    part, squaring the mantissa gives the fraction. *)
Fixpoint log2_fraction (fuel : nat) (y w acc : float) : float :=
  match fuel with
  | O => acc
  | S fuel' =>
      let y2 := (y * y)%float in
      if (2 <=? y2)%float
      then log2_fraction fuel' (y2 / 2)%float (w / 2)%float (acc + w)%float
      else log2_fraction fuel' y2 (w / 2)%float acc
  end.

Definition ln2 : float := 0x1.62e42fefa39efp-1%float.

Definition log (x : float) : float :=
  if is_nan x then nan
  else if (x <? 0)%float then nan
  else if (x =? 0)%float then neg_infinity
  else if is_infinity x then infinity
  else
    let '(m, e) := Z.frexp x in
    ((of_Z (e - 1) + log2_fraction 48 (2 * m)%float 0.5%float 0%float) * ln2)%float.

(** The cosine by its power series. *)
Fixpoint cos_series (fuel : nat) (k : Z) (x2 term acc : float) : float :=
  match fuel with
  | O => acc
  | S fuel' =>
      let term' := (- (term * x2) / of_Z ((2 * k + 1) * (2 * k + 2)))%float in
      cos_series fuel' (k + 1)%Z x2 term' (acc + term')%float
  end.

Definition cos (x : float) : float := cos_series 30 0 (x * x)%float 1%float 1%float.

#[export] Instance libm : Libm := {| libm_log := log; libm_cos := cos |}.

(** Two ranks. *)
Definition world : Comm := {| comm_last := 1 |}.

(** Every rank holds the nodes [k/n], [k = 0 .. n], of one horizontal line
    of the square, where [n = nx * degree]. *)
Definition intervals (V : FunctionSpace) : Z := (mesh_nx (fs_mesh V) * fs_degree V)%Z.

Definition nodes (V : FunctionSpace) (r : nat) : points :=
  let n := intervals V in
  let ks := seqZ 0 (n + 1) in
  [ (fun k => of_Z k / of_Z n)%float <$> ks;
    (fun _ => of_Z (Z.of_nat r) / 2)%float <$> ks;
    (fun _ => 0%float) <$> ks ].

(** Point values of the expressions [u_ufl] builds. *)
Fixpoint eval_ufl (e : ufl_expr) (x : points) : outcome (list float) :=
  match e with
  | FloatValue c => Return (replicate (shape1 x) c)
  | Indexed (SpatialCoordinate _) i => getitem x i
  | Product a b => va ← eval_ufl a x; vb ← eval_ufl b x; np.multiply va vb
  | Cos a => va ← eval_ufl a x; Return (np.cos va)
  | _ => Raise TypeError
  end.

(** A function of one space seen from another: the value at the nearest
    node to the left. *)
Definition resample (g : Function) (V : FunctionSpace) (r : nat) : list float :=
  let n_s := intervals (function_space g) in
  let n_t := intervals V in
  (fun k => default 0%float (x_array g r !! Z.to_nat (k * n_s / n_t)))
    <$> seqZ 0 (n_t + 1).

Definition interpolate_values (V : FunctionSpace) (v : pyval)
  : outcome (dist (list float)) :=
  let comm := mesh_comm (fs_mesh V) in
  match v with
  | PyCallable f => on_ranks [] comm (fun r => f (nodes V r))
  | PyExpression e => on_ranks [] comm (fun r => eval_ufl (expr_ufl e) (nodes V r))
  | PyUfl (Coefficient g) => Return (resample g V)
  | _ => Raise TypeError
  end.

(** The mean of the products of the coefficients. *)
Definition assemble (M : ufl_form) : outcome (dist float) :=
  match M with
  | Integral (Inner (Coefficient f) (Coefficient g)) =>
      Return (fun r =>
        foldl PrimFloat.add 0 (zip_with PrimFloat.mul (x_array f r) (x_array g r))
        / of_Z (Z.of_nat (length (x_array f r))))%float
  | _ => Raise TypeError
  end.

(** [x ** n] *)
Fixpoint power (x : float) (n : nat) : float :=
  match n with
  | O => 1%float
  | S n' => (x * power x n')%float
  end.

(** The boundary values shifted by [h ** (degree + 1)]. *)
Definition solve (a L : ufl_form) (bcs : list DirichletBC)
    (opts : list (string * string)) : outcome (dist (list float)) :=
  match bcs with
  | [bc] =>
      let V := function_space (bc_value bc) in
      let h := (1 / of_Z (mesh_nx (fs_mesh V)))%float in
      let shift := power h (Z.to_nat (fs_degree V + 1)) in
      Return (fun r => (fun v => v + shift)%float <$> x_array (bc_value bc) r)
  | _ => Raise RuntimeError
  end.

#[export] Instance dolfinx : Dolfinx := {|
  MPI_COMM_WORLD := world;
  create_unit_square c nx ny :=
    if ((0 <? nx) && (0 <? ny))%Z
    then Return {| mesh_comm := c; mesh_nx := nx; mesh_ny := ny |}
    else Raise RuntimeError;
  fem_element mesh family degree :=
    if ((0 <? degree)%Z && String.eqb family "CG")%bool
    then Return tt else Raise RuntimeError;
  fem_local_size V r := Z.to_nat (intervals V + 1);
  fem_interpolation_points V := [[0; 1]; [0; 0]; [0; 0]]%float;
  fem_interpolate := interpolate_values;
  fem_assemble_scalar := assemble;
  locate_entities_boundary mesh dim marker :=
    Return (fun r => [0; mesh_nx mesh]%Z);
  locate_dofs_topological V dim entities :=
    Return (fun r => [0; intervals V]%Z);
  fem_solve := solve
|}.

(** A function of degree 1 on a mesh of two by two cells, with three
    local coefficients on each of the two ranks. *)
Definition mesh2 : Mesh := {| mesh_comm := world; mesh_nx := 2; mesh_ny := 2 |}.

Definition space2 : FunctionSpace :=
  {| fs_mesh := mesh2; fs_family := "CG"; fs_degree := 1 |}.

Definition uh2 : Function :=
  {| function_space := space2;
     x_array := fun r =>
       match r with
       | 0 => [1; -0.5; 1]%float
       | _ => [-1; 1; -0.75]%float
       end |}.

(** The coefficients of the interpolant of [u_numpy] in [space2]. *)
Definition exact2 : dist (list float) :=
  Eval vm_compute in
    match fem_interpolate space2 (PyCallable u_numpy) with
    | Return arr => arr
    | Raise _ => fun _ => []
    end.

(** A compiled [dolfinx.fem.Expression] of the manufactured solution: an
    object that is neither a UFL expression nor a Python function. *)
Definition compiled2 : pyval :=
  PyExpression {| expr_ufl := manufactured_expr (SpatialCoordinate mesh2);
                  expr_points := [[0; 1]; [0; 0]; [0; 0]]%float |}.

End Bench.

(** * Further reference forms *)

(** The number of consecutive pairs of an array: the length of [a[1:]]. *)
Definition pairs (a : list float) : nat := length a - 1.

(** A value that is neither a NaN nor an infinity. *)
Definition finite (x : float) : Prop := is_nan x = false /\ is_infinity x = false.

Section MoreReference.

Context `{Libm} `{Dolfinx}.

(** The first call of [solve_poisson] into the library that fails, with
    the arguments [solve_poisson] gives it, ends with the exception [e];
    the calls before it have returned. *)
Definition poisson_failure (N degree : Z) (e : exn) : Prop :=
  create_unit_square MPI_COMM_WORLD N N = Raise e \/
  exists mesh, create_unit_square MPI_COMM_WORLD N N = Return mesh /\
    let V := {| fs_mesh := mesh; fs_family := "CG"; fs_degree := degree |} in
    let dim := (topology_dim mesh - 1)%Z in
    let f := Neg (Div (Grad (manufactured_expr (SpatialCoordinate mesh)))) in
    let a := Integral (Inner (Grad (TrialFunction V)) (Grad (TestFunction V))) in
    let L := Integral (Product f (TestFunction V)) in
    fem_element mesh "CG" degree = Raise e \/
    (exists u, fem_element mesh "CG" degree = Return u) /\
    (fem_interpolate V (PyCallable u_numpy) = Raise e \/
     exists arr_bc, fem_interpolate V (PyCallable u_numpy) = Return arr_bc /\
       let u_bc := {| function_space := V; x_array := arr_bc |} in
       locate_entities_boundary mesh dim (fun x => replicate (shape1 x) true) = Raise e \/
       exists facets,
         locate_entities_boundary mesh dim (fun x => replicate (shape1 x) true)
           = Return facets /\
         (locate_dofs_topological V dim facets = Raise e \/
          exists dofs, locate_dofs_topological V dim facets = Return dofs /\
            fem_solve a L [ {| bc_value := u_bc; bc_dofs := dofs |} ]
              [("ksp_type", "preonly"); ("pc_type", "lu")]%string = Raise e)).

(** One pass of a study loop, for the entry [N] of [Ns] and started from
    the heap [h], ends with the exception [e]: in the solver, or else in
    the evaluator called on what the solver returned, or else in
    [1./Ns[i]]. *)
Definition pass_fails (solve : Z -> Z -> Py (loc * ufl_expr))
    (evaluate : loc -> pyval -> Py float) (degree N : Z) (h : heap) (e : exn) : Prop :=
  solve N degree h = Raise e \/
  exists uh ue h1, solve N degree h = Return ((uh, ue), h1) /\
    (evaluate uh (PyCallable u_numpy) h1 = Raise e \/
     exists E h2, evaluate uh (PyCallable u_numpy) h1 = Return (E, h2) /\
       ((e = OverflowError /\ py_float N = Raise OverflowError) \/
        (e = ZeroDivisionError /\
         exists fN, py_float N = Return fN /\ (fN =? 0)%float = true))).

(** What a study loop over [Ns] records for one degree: for every entry
    [N] of [Ns], the value the evaluator returns when it is called with
    [u_numpy] on the solution of a run of [solve_poisson(N, degree)] of
    its own, and the mesh size [1 / float(N)]. *)
Definition study_record (evaluate : loc -> pyval -> Py float) (degree : Z)
    (Ns : list Z) (Es hs : list float) : Prop :=
  length Es = length Ns /\ length hs = length Ns /\
  forall i N, Ns !! i = Some N ->
    exists (f_bc f_uh : Function) (ret : ufl_expr) (E fN : float),
      solve_poisson N degree [] = Return ((1, ret), [f_bc; f_uh]) /\
      value_of (evaluate 1 (PyCallable u_numpy) [f_bc; f_uh]) = Return E /\
      Es !! i = Some E /\
      py_float N = Return fN /\ (fN =? 0)%float = false /\
      hs !! i = Some (1 / fN)%float.

End MoreReference.

(** ** More bench data *)

Module Serial.

(** A serial run: one rank. *)
Definition mesh1 : Mesh :=
  {| mesh_comm := {| comm_last := 0 |}; mesh_nx := 2; mesh_ny := 2 |}.

Definition space1 : FunctionSpace :=
  {| fs_mesh := mesh1; fs_family := "CG"; fs_degree := 1 |}.

(** The interpolant of [u_numpy] in [space1], by the bench library. *)
Definition exact1 : dist (list float) :=
  Eval vm_compute in
    match @fem_interpolate Bench.dolfinx space1 (PyCallable (@u_numpy Bench.libm)) with
    | Return arr => arr
    | Raise _ => fun _ => []
    end.

(** A function whose first coefficient is a NaN. *)
Definition uh_nan : Function :=
  {| function_space := space1; x_array := fun _ => [nan; 1; 1]%float |}.

(** A function without coefficients, and an exact solution that has no
    values. *)
Definition uh_empty : Function :=
  {| function_space := space1; x_array := fun _ => [] |}.

Definition no_values : pyval := PyCallable (fun _ => Return []).

Definition empty1 : dist (list float) :=
  Eval vm_compute in
    match @fem_interpolate Bench.dolfinx space1 no_values with
    | Return arr => arr
    | Raise _ => fun _ => [0%float]
    end.

End Serial.

(** The function of [Bench.space2] whose coefficients are those of the
    interpolant of [u_numpy]. *)
Definition uh_exact2 : Function :=
  {| function_space := Bench.space2; x_array := Bench.exact2 |}.

(** What the rate cell after a loop over [Ns] leaves for one degree: the
    pairwise quotients of the loop's [Es] and [hs]. *)
Definition rates_of_loop `{Libm} (solve : Z -> Z -> Py (loc * ufl_expr))
    (evaluate : loc -> pyval -> Py float) (degree : Z) (r : list float) : Prop :=
  length r = length Ns - 1 /\
  exists (Es hs : list float) (h1 h2 : heap),
    study_loop solve evaluate degree Ns h1 = Return ((Es, hs), h2) /\
    r = rate_entries Es hs.

(** The function [Bench.uh2] with a NaN among its coefficients on the
    second rank, next to a coefficient far from the exact solution. *)
Definition uh_nan2 : Function :=
  {| function_space := Bench.space2;
     x_array := fun r =>
       match r with
       | 0 => [1; -0.5; 1]%float
       | _ => [nan; 101; -0.75]%float
       end |}.


(** * Properties *)

(** ** Outcomes *)

Lemma bind_Return_inv {A B : Type} (m : outcome A) (k : A -> outcome B) (b : B) :
  m ≫= k = Return b -> exists a, m = Return a /\ k a = Return b.
Proof. destruct m as [a|e]; simpl; [eauto | discriminate]. Qed.

Lemma bind_Raise_inv {A B : Type} (m : outcome A) (k : A -> outcome B) (e : exn) :
  m ≫= k = Raise e -> m = Raise e \/ exists a, m = Return a /\ k a = Raise e.
Proof. destruct m as [a|e']; simpl; [eauto | intros [= ->]; auto]. Qed.

Lemma outcome_bind_Return {A B : Type} (a : A) (k : A -> outcome B) :
  Return a ≫= k = k a.
Proof. done. Qed.

Lemma outcome_bind_Raise {A B : Type} (e : exn) (k : A -> outcome B) :
  Raise e ≫= k = Raise e.
Proof. done. Qed.

(** Case analysis on the outcome [o] of a library call: the exception is
    propagated, the value is passed on. *)
Ltac case_outcome o :=
  let a := fresh "a" in
  let e := fresh "e" in
  destruct o as [a|e];
  [ rewrite ?outcome_bind_Return; cbn beta
  | rewrite ?outcome_bind_Raise; try done ].

(** ** IEEE comparison *)

Lemma SFcompare_refl (s : spec_float) :
  sf_is_nan s = false -> SFcompare s s = Some Eq.
Proof.
  destruct s as [sg|sg| |sg m e]; simpl; try done.
  - by destruct sg.
  - intros _. rewrite Z.compare_refl.
    change (PosDef.Pos.compare_cont Eq m m) with (Pos.compare m m).
    rewrite Pos.compare_refl. by destruct sg.
Qed.

Lemma SFcompare_nan_l (s t : spec_float) (c : comparison) :
  SFcompare s t = Some c -> sf_is_nan s = false /\ sf_is_nan t = false.
Proof. destruct s, t; simpl; done. Qed.

Lemma SFcompare_Some (s t : spec_float) :
  sf_is_nan s = false -> sf_is_nan t = false -> exists c, SFcompare s t = Some c.
Proof. destruct s, t; simpl; try done; eauto. Qed.

Lemma SFcompare_antisym (s t : spec_float) (c : comparison) :
  SFcompare s t = Some c -> SFcompare t s = Some (CompOpp c).
Proof.
  destruct s as [sg|sg| |sg m e], t as [sg'|sg'| |sg' m' e']; simpl; try done;
    intros [= <-]; f_equal;
    repeat match goal with b : bool |- _ => destruct b end; simpl; try done.
  all: rewrite (Z.compare_antisym e e');
    change (PosDef.Pos.compare_cont Eq ?a ?b) with (Pos.compare a b);
    rewrite (Pos.compare_antisym m m');
    by destruct (e ?= e')%Z, (m ?= m')%positive.
Qed.

(** Finite numbers of one sign are ordered by exponent, then mantissa. *)
Lemma lexicographic_trans (e e' e'' : Z) (m m' m'' : positive) (c1 c2 : comparison) :
  match (e ?= e')%Z with Eq => (m ?= m')%positive | c => c end = c1 ->
  match (e' ?= e'')%Z with Eq => (m' ?= m'')%positive | c => c end = c2 ->
  c1 <> Gt -> c2 <> Gt ->
  match (e ?= e'')%Z with Eq => (m ?= m'')%positive | c => c end <> Gt.
Proof.
  destruct (Z.compare_spec e e'), (Z.compare_spec e' e''), (Z.compare_spec e e'');
    destruct (Pos.compare_spec m m'), (Pos.compare_spec m' m''),
             (Pos.compare_spec m m''); intros <- <-; done || lia.
Qed.

Lemma sf_le_alt (s t : spec_float) :
  sf_le s t <-> exists c, SFcompare s t = Some c /\ c <> Gt.
Proof.
  unfold sf_le. split.
  - intros [->| ->]; eauto.
  - intros [[] [-> ?]]; auto. done.
Qed.

Lemma sf_le_trans (s t u : spec_float) : sf_le s t -> sf_le t u -> sf_le s u.
Proof.
  rewrite !sf_le_alt. intros (c1 & H1 & Hc1) (c2 & H2 & Hc2).
  destruct s as [sg|sg| |sg m e], t as [sg'|sg'| |sg' m' e'],
           u as [sg''|sg''| |sg'' m'' e'']; simpl in *; try done;
    simplify_eq; eexists; (split; [done|]);
    repeat match goal with b : bool |- _ => destruct b end; simpl in *; try done.
  all: change (PosDef.Pos.compare_cont Eq ?a ?b) with (Pos.compare a b) in *.
  - intros HGt.
    apply (lexicographic_trans e'' e' e m'' m' m _ _ eq_refl eq_refl).
    + rewrite Z.compare_antisym, (Pos.compare_antisym m' m'').
      by destruct (e' ?= e'')%Z, (m' ?= m'')%positive.
    + rewrite Z.compare_antisym, (Pos.compare_antisym m m').
      by destruct (e ?= e')%Z, (m ?= m')%positive.
    + rewrite Z.compare_antisym, (Pos.compare_antisym m m'').
      by destruct (e ?= e'')%Z, (m ?= m'')%positive.
  - by apply (lexicographic_trans e e' e'' m m' m'' _ _ eq_refl eq_refl).
Qed.

Lemma is_nan_Prim2SF (x : float) : is_nan x = sf_is_nan (Prim2SF x).
Proof.
  unfold is_nan. rewrite FloatAxioms.eqb_spec. unfold SFeqb.
  destruct (sf_is_nan (Prim2SF x)) eqn:Hx.
  - by destruct (Prim2SF x).
  - by rewrite SFcompare_refl.
Qed.

Lemma fle_sf_le (x y : float) : fle x y <-> sf_le (Prim2SF x) (Prim2SF y).
Proof.
  unfold fle, sf_le. rewrite leb_spec. unfold SFleb.
  destruct (SFcompare _ _) as [[]|]; split; auto; try done; intros [?|?]; done.
Qed.

Lemma fle_refl (x : float) : number x -> fle x x.
Proof.
  unfold number. rewrite is_nan_Prim2SF, fle_sf_le. intros Hx.
  right. by apply SFcompare_refl.
Qed.

Lemma fle_trans (x y z : float) : fle x y -> fle y z -> fle x z.
Proof. rewrite !fle_sf_le. apply sf_le_trans. Qed.

Lemma fle_number (x y : float) : fle x y -> number x /\ number y.
Proof.
  unfold number. rewrite fle_sf_le, !is_nan_Prim2SF.
  intros [Hc|Hc]; by apply SFcompare_nan_l in Hc.
Qed.

Lemma ltb_fle (x y : float) : (x <? y)%float = true -> fle x y.
Proof.
  rewrite ltb_spec, fle_sf_le. unfold SFltb, sf_le.
  destruct (SFcompare _ _) as [[]|]; auto; done.
Qed.

Lemma not_ltb_fle (x y : float) :
  number x -> number y -> (x <? y)%float = false -> fle y x.
Proof.
  unfold number. rewrite !is_nan_Prim2SF, ltb_spec, fle_sf_le.
  intros Hx Hy. unfold SFltb, sf_le.
  destruct (SFcompare_Some _ _ Hx Hy) as [c Hc]. rewrite Hc.
  rewrite (SFcompare_antisym _ _ _ Hc). destruct c; simpl; auto; done.
Qed.

Lemma number_abs (x : float) : number x -> number (abs x).
Proof.
  unfold number. rewrite !is_nan_Prim2SF, abs_spec. by destruct (Prim2SF x).
Qed.

(** The square root is never below zero (it can be a NaN). *)
Lemma binary_round_aux_not_negative (mx ex : Z) (lx : location) :
  SFltb (binary_round_aux prec emax false mx ex lx) (S754_zero false) = false.
Proof.
  unfold binary_round_aux.
  destruct (shr_fexp prec emax mx ex lx) as [mrs' e'].
  destruct (shr_fexp prec emax _ e' loc_Exact) as [mrs'' e''].
  destruct (shr_m mrs'') as [|m|m]; [done| |done].
  by destruct (e'' <=? emax - prec)%Z.
Qed.

Lemma sqrt_not_negative (x : float) : (sqrt x <? 0)%float = false.
Proof.
  rewrite ltb_spec, sqrt_spec.
  change (Prim2SF 0) with (S754_zero false).
  unfold SF64sqrt, SFsqrt.
  destruct (Prim2SF x) as [s|[]| |[] m e]; try done.
  destruct (SFsqrt_core_binary prec emax (Z.pos m) e) as [[mz ez] lz].
  apply binary_round_aux_not_negative.
Qed.

(** ** numpy *)

Lemma length_tail_slice (a : list float) : length (np.tail_slice a) = length a - 1.
Proof. unfold np.tail_slice. by rewrite length_drop. Qed.

Lemma length_init_slice (a : list float) : length (np.init_slice a) = length a - 1.
Proof. unfold np.init_slice. rewrite length_take. lia. Qed.

Lemma broadcast2_same_shape f (a b : list float) :
  length a = length b -> np.broadcast2 f a b = Return (zip_with f a b).
Proof. intros Hlen. unfold np.broadcast2. by rewrite decide_True. Qed.

Lemma broadcast2_Raise f (a b : list float) e :
  np.broadcast2 f a b = Raise e -> e = ValueError /\ length a <> length b.
Proof.
  unfold np.broadcast2. destruct (decide (length a = length b)) as [|Hne]; [done|].
  destruct a as [|x [|x' a]], b as [|y [|y' b]]; intros [= <-]; done.
Qed.

Lemma slices_same_shape (a : list float) :
  length (np.tail_slice a) = length (np.init_slice a).
Proof. by rewrite length_tail_slice, length_init_slice. Qed.

(** The quotient [a[1:]/a[:-1]] of consecutive entries. *)
Lemma divide_slices (a : list float) :
  np.divide (np.tail_slice a) (np.init_slice a)
  = Return (zip_with PrimFloat.div (np.tail_slice a) (np.init_slice a)).
Proof. apply broadcast2_same_shape, slices_same_shape. Qed.

Lemma length_consecutive_quotients (a : list float) :
  length (zip_with PrimFloat.div (np.tail_slice a) (np.init_slice a)) = length a - 1.
Proof. rewrite length_zip_with, length_tail_slice, length_init_slice. lia. Qed.

Lemma lookup_consecutive_quotients (a : list float) (i : nat) (x y : float) :
  a !! i = Some y -> a !! S i = Some x ->
  zip_with PrimFloat.div (np.tail_slice a) (np.init_slice a) !! i = Some (x / y)%float.
Proof.
  intros Hy Hx. rewrite lookup_zip_with. unfold np.tail_slice, np.init_slice.
  rewrite lookup_drop. simpl. rewrite Hx. simpl.
  rewrite lookup_take_lt; [by rewrite Hy|].
  apply lookup_lt_Some in Hx. lia.
Qed.

(** ** Maxima *)

Lemma max_like_maximum : max_like np.maximum.
Proof.
  intros a b Ha Hb. unfold np.maximum. rewrite Ha, Hb.
  destruct (a <? b)%float eqn:Hlt.
  - split_and!; [by apply ltb_fle | by apply fle_refl | by right].
  - split_and!; [by apply fle_refl | by apply not_ltb_fle | by left].
Qed.

Lemma max_like_MAX : max_like MPI.MAX.
Proof.
  intros a b Ha Hb. unfold MPI.MAX.
  destruct (a <? b)%float eqn:Hlt.
  - split_and!; [by apply ltb_fle | by apply fle_refl | by right].
  - split_and!; [by apply fle_refl | by apply not_ltb_fle | by left].
Qed.

(** Folding a maximum over numbers picks one of them, and it bounds all
    of them. *)
Lemma foldl_max_like (op : float -> float -> float) (x : float) (xs : list float) :
  max_like op -> number x -> Forall number xs ->
  foldl op x xs ∈ x :: xs /\ Forall (fun y => fle y (foldl op x xs)) (x :: xs).
Proof.
  intros Hop. revert x. induction xs as [|y ys IH]; intros x Hx Hxs; simpl.
  - split; [apply list_elem_of_here|]. constructor; [by apply fle_refl|constructor].
  - apply Forall_cons in Hxs as [Hy Hys].
    destruct (Hop x y Hx Hy) as (Hxle & Hyle & Hsel).
    assert (Hnum : number (op x y)) by (by destruct Hsel as [-> | ->]).
    destruct (IH (op x y) Hnum Hys) as [Hin Hall].
    apply Forall_cons in Hall as [Hle Hall]. split.
    + apply elem_of_cons in Hin as [->|Hin].
      * destruct Hsel as [-> | ->]; [apply list_elem_of_here|].
        apply list_elem_of_further, list_elem_of_here.
      * by do 2 apply list_elem_of_further.
    + repeat constructor; [by eapply fle_trans..|done].
Qed.

(** ** Rank-local computations *)

Lemma mapO_Return {A B : Type} (f : A -> outcome B) (l : list A) (vs : list B) :
  mapO f l = Return vs <-> Forall2 (fun a b => f a = Return b) l vs.
Proof.
  revert vs. induction l as [|a l IH]; intros vs; simpl.
  - split; [intros [= <-]; constructor | by intros ->%Forall2_nil_inv_l].
  - split.
    + intros (b & Hb & Hrest)%bind_Return_inv.
      apply bind_Return_inv in Hrest as (bs & Hbs & [= <-]).
      constructor; [done | by apply IH].
    + intros (b & bs & Hb & Hbs & ->)%Forall2_cons_inv_l.
      rewrite Hb. simpl. apply IH in Hbs. by rewrite Hbs.
Qed.

Lemma on_ranks_Return {A : Type} (d : A) (c : Comm) (f : nat -> outcome A)
    (v : dist A) :
  on_ranks d c f = Return v ->
  forall r, r <= comm_last c -> f r = Return (v r).
Proof.
  unfold on_ranks. intros (vs & Hvs & [= <-])%bind_Return_inv r Hr.
  apply mapO_Return in Hvs.
  assert (Hlook : comm_ranks c !! r = Some r).
  { unfold comm_ranks. apply lookup_seq. lia. }
  destruct (Forall2_lookup_l _ _ _ _ _ Hvs Hlook) as (b & Hb & Hfb).
  by rewrite Hb.
Qed.

Lemma on_ranks_total {A : Type} (d : A) (c : Comm) (f : nat -> outcome A) :
  (forall r, r <= comm_last c -> exists a, f r = Return a) ->
  exists v, on_ranks d c f = Return v.
Proof.
  intros Hf. unfold on_ranks.
  assert (Hvs : exists vs, mapO f (comm_ranks c) = Return vs).
  { assert (Hall : Forall (fun r => r <= comm_last c) (comm_ranks c)).
    { apply Forall_forall. intros r Hr%elem_of_seq. lia. }
    induction Hall as [|r l Hr Hl IH]; simpl; [eauto|].
    destruct (Hf r Hr) as [a ->]. destruct IH as [vs ->]. simpl. eauto. }
  destruct Hvs as [vs ->]. simpl. eauto.
Qed.

Lemma mapO_Raise {A B : Type} (f : A -> outcome B) (l : list A) (e : exn) :
  mapO f l = Raise e -> exists a, a ∈ l /\ f a = Raise e.
Proof.
  induction l as [|a l IH]; simpl; [done|].
  intros [Ha|(b & Hb & Hrest)]%bind_Raise_inv.
  - exists a. split; [apply list_elem_of_here|done].
  - apply bind_Raise_inv in Hrest as [Hl|(bs & _ & [=])].
    destruct (IH Hl) as (a' & Hin & Ha'). exists a'.
    split; [by apply list_elem_of_further|done].
Qed.

Lemma on_ranks_Raise {A : Type} (d : A) (c : Comm) (f : nat -> outcome A) (e : exn) :
  on_ranks d c f = Raise e -> exists r, r <= comm_last c /\ f r = Raise e.
Proof.
  unfold on_ranks. intros [Hl|(vs & _ & [=])]%bind_Raise_inv.
  apply mapO_Raise in Hl as (r & Hr%elem_of_seq & Hfr). exists r. split; [lia|done].
Qed.

Lemma allreduce_fold (c : Comm) (v : dist float) (op : float -> float -> float) :
  MPI.allreduce c v op = foldl op (v 0) (v <$> seq 1 (comm_last c)).
Proof. done. Qed.

(** [np.max(np.abs(a - b))] on two arrays of one shape whose differences
    are numbers: the largest absolute difference. *)
Lemma local_max_error_spec (a b : list float) :
  a <> [] -> length a = length b ->
  (forall i x y, a !! i = Some x -> b !! i = Some y -> number (x - y)) ->
  exists m, local_max_error a b = Return m /\ number m /\
    (forall i x y, a !! i = Some x -> b !! i = Some y -> fle (abs (x - y)) m) /\
    (exists i x y, a !! i = Some x /\ b !! i = Some y /\ m = abs (x - y)).
Proof.
  intros Hne Hlen Hnum. unfold local_max_error, np.subtract.
  rewrite broadcast2_same_shape by done. simpl.
  set (ds := np.absolute (zip_with PrimFloat.sub a b)).
  assert (Hds : forall i d, ds !! i = Some d <->
            exists x y, a !! i = Some x /\ b !! i = Some y /\ d = abs (x - y)).
  { intros i d. unfold ds, np.absolute.
    rewrite list_lookup_fmap, fmap_Some. setoid_rewrite lookup_zip_with_Some.
    split.
    - intros (z & (x & y & -> & Hx & Hy) & ->). by exists x, y.
    - intros (x & y & Hx & Hy & ->). exists (x - y)%float. split; [|done].
      by exists x, y. }
  assert (Hall : Forall number ds).
  { apply Forall_forall. intros d (i & Hi)%list_elem_of_lookup_1.
    apply Hds in Hi as (x & y & Hx & Hy & ->). apply number_abs. eauto. }
  destruct ds as [|d ds'] eqn:Eds.
  { destruct a as [|x a]; [done|]. destruct b as [|y b]; done. }
  apply Forall_cons in Hall as [Hd Hall]. simpl.
  destruct (foldl_max_like np.maximum d ds' max_like_maximum Hd Hall) as [Hin Hle].
  exists (foldl np.maximum d ds'). split_and!; [done| | |].
  - apply list_elem_of_lookup_1 in Hin as [i Hi].
    apply Hds in Hi as (x & y & Hx & Hy & ->). apply number_abs. eauto.
  - intros i x y Hx Hy. rewrite Forall_forall in Hle. apply Hle.
    apply (list_elem_of_lookup_2 _ i). apply Hds. eauto.
  - apply list_elem_of_lookup_1 in Hin as [i Hi].
    apply Hds in Hi as (x & y & Hx & Hy & Hm). eauto 6.
Qed.

(** The all-reduced maximum of numbers held by the ranks of [c]: the
    largest of them. *)
Lemma allreduce_MAX_spec (c : Comm) (v : dist float) :
  (forall r, r <= comm_last c -> number (v r)) ->
  (forall r, r <= comm_last c -> fle (v r) (MPI.allreduce c v MPI.MAX)) /\
  (exists r, r <= comm_last c /\ MPI.allreduce c v MPI.MAX = v r).
Proof.
  intros Hnum. rewrite allreduce_fold.
  assert (Hall : Forall number (v <$> seq 1 (comm_last c))).
  { apply Forall_fmap, Forall_forall. intros r Hr%elem_of_seq. apply Hnum. lia. }
  destruct (foldl_max_like MPI.MAX (v 0) _ max_like_MAX (Hnum 0 ltac:(lia)) Hall)
    as [Hin Hle].
  change (v 0 :: (v <$> seq 1 (comm_last c))) with (v <$> seq 0 (S (comm_last c))) in *.
  split.
  - intros r Hr. rewrite Forall_forall in Hle. apply Hle.
    apply list_elem_of_fmap_2, elem_of_seq. lia.
  - apply list_elem_of_fmap_1 in Hin as (r & Hr & Hin%elem_of_seq).
    exists r. split; [lia|done].
Qed.

(** ** The rate formula in exact arithmetic *)

Lemma ln_quotient (x y : R) : (0 < x)%R -> (0 < y)%R -> ln (x / y) = (ln x - ln y)%R.
Proof.
  intros Hx Hy. unfold Rdiv.
  rewrite ln_mult, ln_Rinv; [lra | done | done | by apply Rinv_0_lt_compat].
Qed.

(** Errors that follow [E = C * h ** r] exactly give back the rate [r],
    for any two distinct positive mesh sizes. *)
Lemma exact_rate_power_law (C r hp hi : R) :
  (0 < C)%R -> (0 < hp)%R -> (0 < hi)%R -> hi <> hp ->
  exact_rate (C * Rpower hp r) (C * Rpower hi r) hp hi = r.
Proof.
  intros HC Hhp Hhi Hne. unfold exact_rate.
  assert (Hpow : forall h, (0 < C * Rpower h r)%R).
  { intros h. apply Rmult_lt_0_compat; [done | apply exp_pos]. }
  rewrite !ln_quotient by done.
  rewrite !ln_mult, !ln_Rpower by (done || apply exp_pos).
  assert (Hln : ln hi <> ln hp) by (intros Heq; by apply Hne, ln_inv).
  field. lra.
Qed.

(** ** The rate computation *)

Section Rates.

Context `{Libm}.

Lemma rates_unfold (Es hs : list float) :
  rates Es hs =
  np.divide
    (np.log (zip_with PrimFloat.div (np.tail_slice Es) (np.init_slice Es)))
    (np.log (zip_with PrimFloat.div (np.tail_slice hs) (np.init_slice hs))).
Proof. unfold rates. by rewrite !divide_slices. Qed.

Lemma rates_same_shape (Es hs : list float) :
  length Es = length hs -> rates Es hs = Return (rate_entries Es hs).
Proof.
  intros Hlen. rewrite rates_unfold. unfold np.divide.
  rewrite broadcast2_same_shape.
  - f_equal. unfold rate_entries, np.log, log_ratio.
    by rewrite zip_with_fmap_l, zip_with_fmap_r.
  - unfold np.log. rewrite !length_fmap, !length_consecutive_quotients. lia.
Qed.

Lemma rates_Raise (Es hs : list float) (e : exn) :
  rates Es hs = Raise e -> e = ValueError /\ length Es <> length hs.
Proof.
  rewrite rates_unfold. intros [-> Hne]%broadcast2_Raise. split; [done|].
  intros Hlen. apply Hne. unfold np.log.
  rewrite !length_fmap, !length_consecutive_quotients. lia.
Qed.

Lemma length_rate_entries (Es hs : list float) :
  length Es = length hs -> length (rate_entries Es hs) = length Es - 1.
Proof.
  intros Hlen. unfold rate_entries.
  rewrite length_zip_with, !length_consecutive_quotients. lia.
Qed.

Lemma lookup_rate_entries (Es hs : list float) (i : nat) (Ep Ei hp hi : float) :
  Es !! i = Some Ep -> Es !! S i = Some Ei ->
  hs !! i = Some hp -> hs !! S i = Some hi ->
  rate_entries Es hs !! i = Some (libm_log (Ei / Ep) / libm_log (hi / hp))%float.
Proof.
  intros HEp HEi Hhp Hhi. unfold rate_entries. rewrite lookup_zip_with.
  rewrite (lookup_consecutive_quotients Es i Ei Ep) by done.
  rewrite (lookup_consecutive_quotients hs i hi hp) by done.
  done.
Qed.

End Rates.

(** ** The monad of cells *)

Lemma Py_bind_deref {B : Type} (h : heap) (l : loc) (f : Function) (k : Function -> Py B) :
  h !! l = Some f -> (deref l ≫= k) h = k f h.
Proof. intros Hl. unfold mbind, Py_bind, deref. by rewrite Hl. Qed.

Lemma deref_dangling {B : Type} (h : heap) (l : loc) (k : Function -> Py B) :
  h !! l = None -> (deref l ≫= k) h = Raise RuntimeError.
Proof. intros Hl. unfold mbind, Py_bind, deref. by rewrite Hl. Qed.

Lemma Py_bind_alloc {B : Type} (h : heap) (f : Function) (k : loc -> Py B) :
  (alloc f ≫= k) h = k (length h) (h ++ [f]).
Proof. done. Qed.

Lemma Py_bind_assign {B : Type} (h : heap) (l : loc) (f : Function) (k : unit -> Py B) :
  (assign l f ≫= k) h = k tt (<[l := f]> h).
Proof. done. Qed.

Lemma Py_bind_lift {A B : Type} (h : heap) (o : outcome A) (k : A -> Py B) :
  (lift o ≫= k) h = a ← o; k a h.
Proof. by destruct o. Qed.

Lemma Py_bind_ret {A B : Type} (h : heap) (a : A) (k : A -> Py B) :
  (mret a ≫= k) h = k a h.
Proof. done. Qed.

Lemma Py_bind_assoc {A B C : Type} (h : heap) (m : Py A) (k1 : A -> Py B) (k2 : B -> Py C) :
  ((m ≫= k1) ≫= k2) h = (m ≫= (fun a => k1 a ≫= k2)) h.
Proof.
  unfold mbind, Py_bind. destruct (m h) as [[a h']|e]; done.
Qed.

Lemma lookup_heap_fresh (h : heap) (f : Function) : (h ++ [f]) !! length h = Some f.
Proof. by rewrite lookup_app_r, Nat.sub_diag. Qed.

Lemma insert_heap_fresh (h : heap) (f g : Function) :
  <[length h := g]> (h ++ [f]) = h ++ [g].
Proof. by rewrite insert_app_r_alt, Nat.sub_diag. Qed.

Lemma lookup_heap_second (h : heap) (f g : Function) :
  (h ++ [f; g]) !! S (length h) = Some g.
Proof.
  rewrite lookup_app_r by lia. by replace (S (length h) - length h) with 1 by lia.
Qed.

Lemma lookup_heap_old (h h' : heap) (l : loc) (f : Function) :
  h !! l = Some f -> (h ++ h') !! l = Some f.
Proof. apply lookup_app_l_Some. Qed.

(** ** Cells that only allocate *)

Lemma heap_local_ret {A : Type} (a : A) : heap_local (mret a).
Proof.
  exists (Return (a, [])). intros h. unfold mret, Py_ret. simpl.
  by rewrite app_nil_r.
Qed.

Lemma heap_local_lift {A : Type} (o : outcome A) : heap_local (lift o).
Proof.
  exists (a ← o; Return (a, [])). intros h. destruct o as [a|e]; simpl; [|done].
  by rewrite app_nil_r.
Qed.

Lemma heap_local_bind {A B : Type} (m : Py A) (k : A -> Py B) :
  heap_local m -> (forall a, heap_local (k a)) -> heap_local (m ≫= k).
Proof.
  intros [p Hp] Hk. destruct p as [[a n1]|e].
  - destruct (Hk a) as [q Hq]. destruct q as [[b n2]|e].
    + exists (Return (b, n1 ++ n2)). intros h.
      unfold mbind at 1, Py_bind. rewrite Hp. simpl. rewrite Hq. simpl.
      by rewrite (assoc_L (++)).
    + exists (Raise e). intros h.
      unfold mbind at 1, Py_bind. rewrite Hp. simpl. by rewrite Hq.
  - exists (Raise e). intros h. unfold mbind at 1, Py_bind. by rewrite Hp.
Qed.

Lemma heap_local_for_each {A S : Type} (xs : list A) (body : S -> A -> Py S) (s : S) :
  (forall s x, heap_local (body s x)) -> heap_local (for_each xs body s).
Proof.
  intros Hbody. revert s. induction xs as [|x xs IH]; intros s; simpl.
  - apply heap_local_ret.
  - apply heap_local_bind; [apply Hbody | apply IH].
Qed.

Lemma heap_local_value {A : Type} (m : Py A) (h1 h2 : heap) :
  heap_local m -> value_of (m h1) = value_of (m h2).
Proof.
  intros [p Hp]. rewrite !Hp. by destruct p as [[a new]|e].
Qed.

(** A cell that only allocates returns, called twice in a row, the same
    value twice. *)
Lemma heap_local_twice {A : Type} (m : Py A) (h : heap) :
  heap_local m -> value_of (twice m h) = value_of (once m h).
Proof.
  intros [p Hp]. unfold twice, once, mbind, Py_bind. rewrite Hp.
  destruct p as [[a new]|e]; simpl; [|done].
  rewrite Hp. done.
Qed.

Lemma for_each_ext {A S : Type} (xs : list A) (body body' : S -> A -> Py S)
    (s : S) (h : heap) :
  (forall s x h, body s x h = body' s x h) ->
  for_each xs body s h = for_each xs body' s h.
Proof.
  intros Hbody. revert s h. induction xs as [|x xs IH]; intros s h; simpl; [done|].
  unfold mbind, Py_bind. rewrite Hbody.
  destruct (body' s x h) as [[s' h']|e]; [apply IH|done].
Qed.

(** ** The manufactured solution *)

Lemma u_ufl_eq (x : ufl_expr) : u_ufl x = Return (manufactured_expr x).
Proof. done. Qed.

(** ** Functions on the heap *)

Section Evaluators.

Context `{Libm} `{Dolfinx}.

Lemma Py_bind_Function_new {B : Type} (h : heap) (V : FunctionSpace) (k : loc -> Py B) :
  (Function_new V ≫= k) h = k (length h) (h ++ [zero_function V]).
Proof. done. Qed.

(** Interpolating into the function allocated last replaces it by the
    interpolant; the rest of the heap is untouched. *)
Lemma Py_bind_interpolate_fresh {B : Type} (h : heap) (f : Function) (v : pyval)
    (k : unit -> Py B) :
  (interpolate (length h) v ≫= k) (h ++ [f]) =
  arr ← fem_interpolate (function_space f) v;
  k tt (h ++ [{| function_space := function_space f; x_array := arr |}]).
Proof.
  unfold interpolate. rewrite Py_bind_assoc.
  rewrite (Py_bind_deref _ _ f) by apply lookup_heap_fresh.
  rewrite Py_bind_assoc, Py_bind_lift.
  destruct (fem_interpolate (function_space f) v) as [arr|e]; simpl; [|done].
  by rewrite Py_bind_assign, insert_heap_fresh.
Qed.

Lemma exact_dispatch (V : FunctionSpace) (l : loc) (u_ex : pyval) :
  match u_ex with
  | PyUfl e =>
      interpolate l
        (PyExpression {| expr_ufl := e; expr_points := fem_interpolation_points V |})
  | _ => interpolate l u_ex
  end = interpolate l (interpolation_source V u_ex).
Proof. by destruct u_ex. Qed.

(** [error_infinity] in closed form. *)
Lemma error_infinity_eq (h : heap) (u_h : loc) (f : Function) (u_ex : pyval) :
  h !! u_h = Some f ->
  error_infinity u_h u_ex h =
  arr ← fem_interpolate (function_space f)
          (interpolation_source (function_space f) u_ex);
  m ← infinity_value f arr;
  Return (m, h ++ [{| function_space := function_space f; x_array := arr |}]).
Proof.
  intros Hf. unfold error_infinity.
  rewrite (Py_bind_deref _ _ f) by done.
  rewrite Py_bind_Function_new.
  rewrite exact_dispatch.
  rewrite (Py_bind_interpolate_fresh h (zero_function (function_space f))). simpl.
  destruct (fem_interpolate _ _) as [arr|e]; simpl; [|done].
  rewrite (Py_bind_deref _ _ f) by by apply lookup_heap_old.
  rewrite (Py_bind_deref _ _ _ _ (lookup_heap_fresh _ _)).
  rewrite Py_bind_lift. unfold infinity_value. simpl.
  by destruct (on_ranks _ _ _).
Qed.

(** [error_L2] in closed form. *)
Lemma error_L2_eq (h : heap) (uh : loc) (f : Function) (u_ex : pyval) (degree_raise : Z) :
  h !! uh = Some f ->
  let V := function_space f in
  let W := raised_space V degree_raise in
  error_L2 uh u_ex degree_raise h =
  _ ← fem_element (fs_mesh V) (fs_family V) (fs_degree V + degree_raise);
  arr_u ← fem_interpolate W (PyUfl (Coefficient f));
  arr_ex ← fem_interpolate W (interpolation_source W u_ex);
  diff ← difference_array W arr_u arr_ex;
  E ← L2_value W diff;
  Return (E, h ++ [ {| function_space := W; x_array := arr_u |};
                    {| function_space := W; x_array := arr_ex |};
                    {| function_space := W; x_array := diff |} ]).
Proof.
  intros Hf V W. unfold error_L2.
  rewrite (Py_bind_deref _ _ f) by done. fold V.
  unfold FunctionSpace_new. rewrite Py_bind_assoc, Py_bind_lift.
  destruct (fem_element _ _ _) as [[]|e]; simpl; [|done].
  rewrite Py_bind_ret. fold (raised_space V degree_raise). fold W.
  rewrite Py_bind_Function_new.
  rewrite (Py_bind_interpolate_fresh h (zero_function W)). simpl.
  destruct (fem_interpolate W (PyUfl _)) as [arr_u|e]; simpl; [|done].
  rewrite Py_bind_Function_new.
  rewrite exact_dispatch.
  rewrite (Py_bind_interpolate_fresh _ (zero_function W)). simpl.
  destruct (fem_interpolate W (interpolation_source _ _)) as [arr_ex|e]; simpl; [|done].
  rewrite Py_bind_Function_new.
  set (fu := {| function_space := W; x_array := arr_u |}).
  set (fex := {| function_space := W; x_array := arr_ex |}).
  assert (Hu : (((h ++ [fu]) ++ [fex]) ++ [zero_function W]) !! length h = Some fu).
  { rewrite <- !(assoc_L (++)). by rewrite lookup_app_r, Nat.sub_diag. }
  assert (Hex : (((h ++ [fu]) ++ [fex]) ++ [zero_function W]) !! length (h ++ [fu]) = Some fex).
  { rewrite <- (assoc_L (++) (h ++ [fu])). by rewrite lookup_app_r, Nat.sub_diag. }
  rewrite (Py_bind_deref _ _ _ _ Hu), (Py_bind_deref _ _ _ _ Hex).
  rewrite (Py_bind_deref _ _ _ _ (lookup_heap_fresh _ _)).
  rewrite Py_bind_lift. unfold difference_array at 1. simpl.
  destruct (on_ranks _ _ _) as [diff|e]; simpl; [|done].
  rewrite Py_bind_assign, insert_heap_fresh.
  rewrite (Py_bind_deref _ _ _ _ (lookup_heap_fresh _ _)).
  rewrite Py_bind_lift. unfold L2_value. simpl.
  destruct (fem_assemble_scalar _) as [error_local|e]; simpl; [|done].
  by rewrite <- !(assoc_L (++)).
Qed.

(** [solve_poisson] in closed form: it allocates [u_bc] and [uh] and
    returns a reference to [uh]. *)
Lemma solve_poisson_eq (h : heap) (N degree : Z) :
  solve_poisson N degree h =
  '(f_bc, f_uh, ret) ← poisson_solution N degree;
  Return ((S (length h), ret), h ++ [f_bc; f_uh]).
Proof.
  unfold solve_poisson, poisson_solution.
  rewrite Py_bind_lift.
  case_outcome (create_unit_square MPI_COMM_WORLD N N).
  rewrite Py_bind_lift, !u_ufl_eq, !outcome_bind_Return. cbn beta.
  unfold FunctionSpace_new. rewrite Py_bind_assoc, Py_bind_lift.
  case_outcome (fem_element a "CG" degree).
  rewrite Py_bind_ret, Py_bind_Function_new.
  rewrite (Py_bind_interpolate_fresh h (zero_function _)).
  cbn [function_space zero_function].
  case_outcome (fem_interpolate {| fs_mesh := a; fs_family := "CG"; fs_degree := degree |}
                  (PyCallable u_numpy)).
  rewrite Py_bind_lift.
  case_outcome (locate_entities_boundary a (topology_dim a - 1)
                  (fun x => replicate (shape1 x) true)).
  rewrite Py_bind_lift.
  match goal with |- context [locate_dofs_topological ?V ?d ?fs] =>
    case_outcome (locate_dofs_topological V d fs) end.
  rewrite (Py_bind_deref _ _ _ _ (lookup_heap_fresh _ _)).
  unfold LinearProblem_solve. rewrite Py_bind_assoc, Py_bind_lift.
  match goal with |- context [fem_solve ?x ?y ?z ?w] =>
    case_outcome (fem_solve x y z w) end.
  rewrite Py_bind_alloc, Py_bind_lift, ?outcome_bind_Return. cbn beta.
  unfold mret, Py_ret. rewrite length_app. simpl. rewrite Nat.add_1_r.
  by rewrite <- (assoc_L (++)).
Qed.

(** ** What the evaluators can raise *)

Lemma max_Raise (a : list float) (e : exn) : np.max a = Raise e -> e = ValueError.
Proof. destruct a; simpl; congruence. Qed.

Lemma assign_all_Raise (dst src : list float) (e : exn) :
  np.assign_all dst src = Raise e -> e = ValueError.
Proof.
  unfold np.assign_all. destruct (decide _); [done|].
  destruct src as [|x [|y src]]; congruence.
Qed.

Lemma local_max_error_Raise (a b : list float) (e : exn) :
  local_max_error a b = Raise e -> e = ValueError.
Proof.
  unfold local_max_error.
  intros [[-> _]%broadcast2_Raise|(d & _ & Hmax%max_Raise)]%bind_Raise_inv; done.
Qed.

Lemma infinity_value_Raise (f : Function) (arr : dist (list float)) (e : exn) :
  infinity_value f arr = Raise e -> e = ValueError.
Proof.
  unfold infinity_value.
  intros [(r & _ & Hr)%on_ranks_Raise|(v & _ & [=])]%bind_Raise_inv.
  by apply local_max_error_Raise in Hr.
Qed.

Lemma difference_array_Raise (W : FunctionSpace) (arr_u arr_ex : dist (list float))
    (e : exn) :
  difference_array W arr_u arr_ex = Raise e -> e = ValueError.
Proof.
  unfold difference_array. intros (r & _ & Hr)%on_ranks_Raise.
  apply bind_Raise_inv in Hr as [[-> _]%broadcast2_Raise|(d & _ & Hd)]; [done|].
  by apply assign_all_Raise in Hd.
Qed.

Lemma L2_value_Raise (W : FunctionSpace) (diff : dist (list float)) (e : exn) :
  L2_value W diff = Raise e -> library_raises e.
Proof.
  unfold L2_value. intros [HM|(v & _ & [=])]%bind_Raise_inv.
  right; right. eauto.
Qed.

(** On a rank without coefficients [np.max] has nothing to reduce: the run
    does not return, and that rank ends with the [ValueError] of [np.max]. *)
Lemma error_infinity_empty_rank (h : heap) (u_h : loc) (f : Function) (u_ex : pyval)
    (arr : dist (list float)) (r : nat) :
  let V := function_space f in
  h !! u_h = Some f ->
  fem_interpolate V (interpolation_source V u_ex) = Return arr ->
  r <= comm_last (mesh_comm (fs_mesh V)) ->
  x_array f r = [] -> arr r = [] ->
  error_infinity u_h u_ex h = Raise ValueError.
Proof.
  intros V Hf Harr Hr Hfr Harr_r.
  rewrite (error_infinity_eq h u_h f u_ex Hf). fold V. rewrite Harr.
  rewrite outcome_bind_Return.
  destruct (infinity_value f arr) as [m|e] eqn:Hval.
  - unfold infinity_value in Hval.
    apply bind_Return_inv in Hval as (v & Hv & _).
    apply on_ranks_Return with (r := r) in Hv; [|done].
    rewrite Hfr, Harr_r in Hv. done.
  - by apply infinity_value_Raise in Hval as ->.
Qed.

(** A compiled expression is evaluated like the symbolic expression it was
    compiled from, for the points of the space interpolated into. *)
Lemma compiled_as_symbolic (h : heap) (uh : loc) (f : Function) (e : ufl_expr)
    (degree_raise : Z) :
  h !! uh = Some f ->
  let V := function_space f in
  let W := raised_space V degree_raise in
  error_infinity uh (PyUfl e) h
  = error_infinity uh
      (PyExpression {| expr_ufl := e; expr_points := fem_interpolation_points V |}) h /\
  error_L2 uh (PyUfl e) degree_raise h
  = error_L2 uh
      (PyExpression {| expr_ufl := e; expr_points := fem_interpolation_points W |})
      degree_raise h.
Proof.
  intros Hf V W. split.
  - by rewrite !(error_infinity_eq h uh f _ Hf).
  - by rewrite !(error_L2_eq h uh f _ degree_raise Hf).
Qed.

(** X6. [error_L2] returns a square root: never a value below zero. *)
Lemma error_L2_not_negative (h : heap) (uh : loc) (u_ex : pyval) (degree_raise : Z)
    (E : float) (h' : heap) :
  error_L2 uh u_ex degree_raise h = Return (E, h') -> (E <? 0)%float = false.
Proof.
  destruct (h !! uh) as [f|] eqn:Hf.
  - rewrite (error_L2_eq h uh f u_ex degree_raise Hf). cbv zeta.
    intros (? & _ & Hrun)%bind_Return_inv.
    apply bind_Return_inv in Hrun as (arr_u & _ & Hrun).
    apply bind_Return_inv in Hrun as (arr_ex & _ & Hrun).
    apply bind_Return_inv in Hrun as (diff & _ & Hrun).
    apply bind_Return_inv in Hrun as (E' & HE & [= <- _]).
    unfold L2_value in HE.
    apply bind_Return_inv in HE as (error_local & _ & [= <-]).
    apply sqrt_not_negative.
  - unfold error_L2. by rewrite deref_dangling.
Qed.

(** ** Evaluators read their argument and allocate *)

Lemma error_infinity_reads_only_argument : reads_only_argument error_infinity.
Proof.
  intros f u.
  exists (arr ← fem_interpolate (function_space f)
                  (interpolation_source (function_space f) u);
          m ← infinity_value f arr;
          Return (m, [{| function_space := function_space f; x_array := arr |}])).
  intros uh h Hf. rewrite (error_infinity_eq h uh f u Hf).
  case_outcome (fem_interpolate (function_space f)
                  (interpolation_source (function_space f) u)).
  by case_outcome (infinity_value f a).
Qed.

Lemma error_L2_reads_only_argument (degree_raise : Z) :
  reads_only_argument (fun uh u => error_L2 uh u degree_raise).
Proof.
  intros f u.
  set (V := function_space f). set (W := raised_space V degree_raise).
  exists (_ ← fem_element (fs_mesh V) (fs_family V) (fs_degree V + degree_raise);
          arr_u ← fem_interpolate W (PyUfl (Coefficient f));
          arr_ex ← fem_interpolate W (interpolation_source W u);
          diff ← difference_array W arr_u arr_ex;
          E ← L2_value W diff;
          Return (E, [ {| function_space := W; x_array := arr_u |};
                       {| function_space := W; x_array := arr_ex |};
                       {| function_space := W; x_array := diff |} ])).
  intros uh h Hf. rewrite (error_L2_eq h uh f u degree_raise Hf).
  cbv zeta. fold V W.
  case_outcome (fem_element (fs_mesh V) (fs_family V) (fs_degree V + degree_raise)).
  case_outcome (fem_interpolate W (PyUfl (Coefficient f))).
  case_outcome (fem_interpolate W (interpolation_source W u)).
  case_outcome (difference_array W a0 a1).
  by case_outcome (L2_value W a2).
Qed.

(** Called twice in a row on the same arguments, an evaluator returns the
    same value twice. *)
Lemma reads_only_argument_twice (evaluate : loc -> pyval -> Py float)
    (uh : loc) (u : pyval) (h : heap) :
  reads_only_argument evaluate ->
  (h !! uh = None -> exists e, evaluate uh u h = Raise e) ->
  value_of (twice (evaluate uh u) h) = value_of (once (evaluate uh u) h).
Proof.
  intros Hev Hdangling. unfold twice, once, mbind, Py_bind.
  destruct (h !! uh) as [f|] eqn:Hf.
  - destruct (Hev f u) as [p Hp]. rewrite (Hp uh h Hf).
    destruct p as [[v new]|e]; simpl; [|done].
    rewrite (Hp uh (h ++ new)) by by apply lookup_heap_old. done.
  - destruct (Hdangling eq_refl) as [e ->]. done.
Qed.

(** ** The study loops only allocate *)

Lemma study_body_heap_local (evaluate : loc -> pyval -> Py float)
    (degree : Z) (Ns : list Z) (st : list float * list float) (iN : nat * Z) :
  reads_only_argument evaluate ->
  heap_local (study_body solve_poisson evaluate degree Ns st iN).
Proof.
  intros Hev. destruct st as [Es hs], iN as [i N].
  destruct (poisson_solution N degree) as [[[f_bc f_uh] ret]|e] eqn:Hsol.
  - destruct (Hev f_uh (PyCallable u_numpy)) as [p Hp].
    exists ('(E, new) ← p;
            Es' ← setitem Es i E;
            Ni ← getitem Ns i;
            fNi ← py_float Ni;
            h_i ← py_truediv 1 fNi;
            hs' ← setitem hs i h_i;
            Return ((Es', hs'), [f_bc; f_uh] ++ new)).
    intros h. unfold study_body, mbind at 1, Py_bind.
    rewrite solve_poisson_eq, Hsol. simpl.
    unfold mbind at 1, Py_bind. rewrite (Hp (S (length h)) (h ++ [f_bc; f_uh])).
    2:{ apply lookup_heap_second. }
    destruct p as [[E new]|e]; simpl; [|done].
    rewrite Py_bind_lift. case_outcome (setitem Es i E).
    rewrite Py_bind_lift. case_outcome (getitem Ns i).
    rewrite Py_bind_lift. case_outcome (py_float a0).
    rewrite Py_bind_lift. case_outcome (py_truediv 1 a1).
    rewrite Py_bind_lift. case_outcome (setitem hs i a2).
    unfold mret, Py_ret. by rewrite <- (assoc_L (++)).
  - exists (Raise e). intros h. unfold study_body, mbind at 1, Py_bind.
    by rewrite solve_poisson_eq, Hsol.
Qed.

Lemma study_loop_heap_local (evaluate : loc -> pyval -> Py float)
    (degree : Z) (Ns : list Z) :
  reads_only_argument evaluate ->
  heap_local (study_loop solve_poisson evaluate degree Ns).
Proof.
  intros Hev. unfold study_loop. apply heap_local_for_each.
  intros st iN. by apply study_body_heap_local.
Qed.

Lemma study_degrees_heap_local (evaluate : loc -> pyval -> Py float) :
  reads_only_argument evaluate ->
  heap_local (study_degrees solve_poisson evaluate).
Proof.
  intros Hev. unfold study_degrees. apply heap_local_for_each.
  intros acc degree. apply heap_local_bind; [by apply study_loop_heap_local|].
  intros [Es hs]. apply heap_local_bind; [apply heap_local_lift|].
  intros r. apply heap_local_ret.
Qed.

(** ** The study loops drop the returned expression *)

Lemma study_body_discarding (evaluate : loc -> pyval -> Py float) (other : ufl_expr)
    (degree : Z) (Ns : list Z) (st : list float * list float) (iN : nat * Z)
    (h : heap) :
  study_body solve_poisson evaluate degree Ns st iN h =
  study_body (solve_discarding other) (against_u_numpy evaluate) degree Ns st iN h.
Proof.
  destruct st as [Es hs], iN as [i N].
  unfold study_body, solve_discarding, against_u_numpy, mbind, Py_bind.
  by destruct (solve_poisson N degree h) as [[[uh ue] h']|e].
Qed.

Lemma study_loop_discarding (evaluate : loc -> pyval -> Py float) (other : ufl_expr)
    (degree : Z) (Ns : list Z) (h : heap) :
  study_loop solve_poisson evaluate degree Ns h =
  study_loop (solve_discarding other) (against_u_numpy evaluate) degree Ns h.
Proof.
  unfold study_loop. apply for_each_ext. intros st iN h'.
  apply study_body_discarding.
Qed.

Lemma study_degrees_discarding (evaluate : loc -> pyval -> Py float)
    (other : ufl_expr) (h : heap) :
  study_degrees solve_poisson evaluate h =
  study_degrees (solve_discarding other) (against_u_numpy evaluate) h.
Proof.
  unfold study_degrees. apply for_each_ext. intros acc degree h'.
  unfold mbind at 1 3, Py_bind. by rewrite (study_loop_discarding _ other).
Qed.

End Evaluators.
(** ** More IEEE facts *)

Lemma abs_not_negative (x : float) : (abs x <? 0)%float = false.
Proof.
  rewrite ltb_spec, abs_spec. change (Prim2SF 0) with (S754_zero false).
  by destruct (Prim2SF x).
Qed.

Lemma is_nan_abs (x : float) : is_nan (abs x) = is_nan x.
Proof. rewrite !is_nan_Prim2SF, abs_spec. by destruct (Prim2SF x). Qed.

Lemma is_infinity_Prim2SF (x : float) :
  is_infinity x = match Prim2SF x with S754_infinity _ => true | _ => false end.
Proof.
  unfold is_infinity. rewrite FloatAxioms.eqb_spec, abs_spec.
  change (Prim2SF infinity) with (S754_infinity false).
  by destruct (Prim2SF x) as [s|s| |s m e].
Qed.

(** A finite value minus itself is [+0]. *)
Lemma sub_diag_finite (x : float) : finite x -> (x - x)%float = 0%float.
Proof.
  intros [Hnan Hinf]. rewrite is_nan_Prim2SF in Hnan.
  rewrite is_infinity_Prim2SF in Hinf.
  apply Prim2SF_inj. rewrite sub_spec. change (Prim2SF 0) with (S754_zero false).
  unfold SF64sub, SFsub.
  destruct (Prim2SF x) as [[]|s| |s m e]; try done.
  rewrite Z.sub_diag. reflexivity.
Qed.

(** ** The study loops, entry by entry *)

Lemma Py_bind_Return_inv {A B : Type} (m : Py A) (k : A -> Py B) (h : heap)
    (b : B) (h' : heap) :
  (m ≫= k) h = Return (b, h') ->
  exists a h1, m h = Return (a, h1) /\ k a h1 = Return (b, h').
Proof.
  unfold mbind, Py_bind. destruct (m h) as [[a h1]|e]; [eauto|done].
Qed.

Lemma Py_bind_Raise_inv {A B : Type} (m : Py A) (k : A -> Py B) (h : heap) (e : exn) :
  (m ≫= k) h = Raise e ->
  m h = Raise e \/ exists a h1, m h = Return (a, h1) /\ k a h1 = Raise e.
Proof.
  unfold mbind, Py_bind. destruct (m h) as [[a h1]|e']; [eauto|].
  intros [= ->]. by left.
Qed.

Lemma lift_Return_inv {A : Type} (o : outcome A) (h : heap) (a : A) (h' : heap) :
  lift o h = Return (a, h') -> o = Return a /\ h' = h.
Proof. destruct o; simpl; [by intros [= -> ->]|done]. Qed.

Lemma setitem_Return_inv (a : list float) (i : nat) (v : float) (a' : list float) :
  setitem a i v = Return a' -> i < length a /\ a' = <[i := v]> a.
Proof. unfold setitem. destruct (decide _); [by intros [= <-]|done]. Qed.

Lemma py_truediv_Return_inv (x y q : float) :
  py_truediv x y = Return q -> (y =? 0)%float = false /\ q = (x / y)%float.
Proof. unfold py_truediv. destruct (y =? 0)%float; [done|by intros [= <-]]. Qed.

Lemma Py_bind_lift_Raise_inv {A B : Type} (o : outcome A) (k : A -> Py B) (h : heap)
    (e : exn) :
  (lift o ≫= k) h = Raise e -> o = Raise e \/ exists a, o = Return a /\ k a h = Raise e.
Proof.
  rewrite Py_bind_lift. destruct o as [a|e']; simpl; [eauto|].
  intros [= ->]. by left.
Qed.

Section LoopLemmas.

Context `{Libm} `{Dolfinx}.

Variable solve : Z -> Z -> Py (loc * ufl_expr).
Variable evaluate : loc -> pyval -> Py float.
Variable degree : Z.

(** One pass through the body of the loop. *)
Lemma study_body_Return (Ns : list Z) (Es hs : list float) (i : nat) (N : Z)
    (h : heap) (Es' hs' : list float) (h' : heap) :
  study_body solve evaluate degree Ns (Es, hs) (i, N) h = Return ((Es', hs'), h') ->
  exists uh ue h1 E Ni fNi,
    solve N degree h = Return ((uh, ue), h1) /\
    evaluate uh (PyCallable u_numpy) h1 = Return (E, h') /\
    i < length Es /\ Es' = <[i := E]> Es /\
    Ns !! i = Some Ni /\ py_float Ni = Return fNi /\ (fNi =? 0)%float = false /\
    i < length hs /\ hs' = <[i := (1 / fNi)%float]> hs.
Proof.
  unfold study_body.
  intros ([uh ue] & h1 & Hsolve & Hrun)%Py_bind_Return_inv.
  apply Py_bind_Return_inv in Hrun as (E & h2 & Heval & Hrun).
  apply Py_bind_Return_inv in Hrun as (Es1 & ? & [HEs ->]%lift_Return_inv & Hrun).
  apply Py_bind_Return_inv in Hrun as (Ni & ? & [HNi ->]%lift_Return_inv & Hrun).
  apply Py_bind_Return_inv in Hrun as (fNi & ? & [HfNi ->]%lift_Return_inv & Hrun).
  apply Py_bind_Return_inv in Hrun as (q & ? & [Hq ->]%lift_Return_inv & Hrun).
  apply Py_bind_Return_inv in Hrun as (hs1 & ? & [Hhs ->]%lift_Return_inv & Hrun).
  injection Hrun as <- <- <-.
  apply setitem_Return_inv in HEs as [HiE ->].
  apply setitem_Return_inv in Hhs as [Hih ->].
  apply py_truediv_Return_inv in Hq as [Hnz ->].
  unfold getitem in HNi. destruct (Ns !! i) as [Ni'|] eqn:HNs; [|done].
  injection HNi as ->.
  exists uh, ue, h1, E, Ni, fNi. split_and!; done.
Qed.

(** The loop over the entries of [Ns] from index [k] on: it keeps the
    lengths of [Es] and [hs], leaves the entries below [k] alone and sets
    entry [k + j] in pass [j]. *)
Lemma study_loop_from (Ns : list Z) (P : Z -> float -> Prop) :
  (forall N h uh ue h1 E h2,
     solve N degree h = Return ((uh, ue), h1) ->
     evaluate uh (PyCallable u_numpy) h1 = Return (E, h2) -> P N E) ->
  forall (xs : list Z) (k : nat) (Es0 hs0 : list float) (h : heap)
         (Es hs : list float) (h' : heap),
    (forall j x, xs !! j = Some x -> Ns !! (k + j) = Some x) ->
    for_each (imap (fun j x => (k + j, x)) xs)
      (study_body solve evaluate degree Ns) (Es0, hs0) h = Return ((Es, hs), h') ->
    length Es = length Es0 /\ length hs = length hs0 /\
    (forall i, i < k -> Es !! i = Es0 !! i /\ hs !! i = hs0 !! i) /\
    (forall j N, xs !! j = Some N ->
       exists E fN,
         Es !! (k + j) = Some E /\ P N E /\
         py_float N = Return fN /\ (fN =? 0)%float = false /\
         hs !! (k + j) = Some (1 / fN)%float).
Proof.
  intros HP xs. induction xs as [|x xs IH]; intros k Es0 hs0 h Es hs h' HNs Hrun.
  - injection Hrun as <- <- <-. split_and!; try done.
  - simpl in Hrun.
    apply Py_bind_Return_inv in Hrun as ([Es1 hs1] & h1 & Hbody & Hrun).
    apply study_body_Return in Hbody
      as (uh & ue & h0 & E & Ni & fNi & Hsolve & Heval & HiE & -> & HNi & HfNi
          & Hnz & Hih & ->).
    rewrite (imap_ext _ (fun j x => (S k + j, x))) in Hrun
      by (intros j y _; simpl; f_equal; lia).
    apply IH in Hrun as (HlE & Hlh & Hold & Hnew).
    2:{ intros j y Hj. replace (S k + j) with (k + S j) by lia. by apply HNs. }
    rewrite length_insert in HlE, Hlh.
    rewrite Nat.add_0_r in HiE, Hih, HNi.
    pose proof (HNs 0 x eq_refl) as Hx. rewrite Nat.add_0_r in Hx.
    rewrite Hx in HNi. injection HNi as <-.
    split_and!; try done.
    + intros i Hi. destruct (Hold i ltac:(lia)) as [-> ->].
      rewrite !list_lookup_insert_ne by lia. done.
    + intros [|j] N Hj.
      * injection Hj as <-. rewrite Nat.add_0_r.
        destruct (Hold k ltac:(lia)) as [-> ->].
        exists E, fNi. rewrite !Nat.add_0_r, !list_lookup_insert_eq by done. split_and!; try done. by eapply HP.
      * replace (k + S j) with (S k + j) by lia. by apply Hnew.
Qed.

Lemma study_loop_entries (Ns : list Z) (P : Z -> float -> Prop) (h : heap)
    (Es hs : list float) (h' : heap) :
  (forall N h uh ue h1 E h2,
     solve N degree h = Return ((uh, ue), h1) ->
     evaluate uh (PyCallable u_numpy) h1 = Return (E, h2) -> P N E) ->
  study_loop solve evaluate degree Ns h = Return ((Es, hs), h') ->
  length Es = length Ns /\ length hs = length Ns /\
  (forall i N, Ns !! i = Some N ->
     exists E fN,
       Es !! i = Some E /\ P N E /\
       py_float N = Return fN /\ (fN =? 0)%float = false /\
       hs !! i = Some (1 / fN)%float).
Proof.
  intros HP Hrun. unfold study_loop, enumerate in Hrun.
  change (imap pair Ns) with (imap (fun j x => (0 + j, x)) Ns) in Hrun.
  apply (study_loop_from Ns P HP) in Hrun as (HlE & Hlh & _ & Hnew); [|done].
  unfold np.zeros in HlE, Hlh. rewrite length_replicate in HlE, Hlh.
  split_and!; try done.
Qed.

End LoopLemmas.

Section StudyCellLemmas.

Context `{Libm} `{Dolfinx}.

(** With [solve_poisson] and an evaluator that only reads its argument,
    what a loop records for [Ns[i]] is what a run of its own gives: the
    functions left on the heap by earlier passes change nothing. *)
Lemma study_loop_isolated (evaluate : loc -> pyval -> Py float) (degree : Z)
    (Ns : list Z) (h : heap) (Es hs : list float) (h' : heap) :
  reads_only_argument evaluate ->
  study_loop solve_poisson evaluate degree Ns h = Return ((Es, hs), h') ->
  study_record evaluate degree Ns Es hs.
Proof.
  intros Hreads Hrun.
  apply (study_loop_entries solve_poisson evaluate degree Ns
           (fun N E => exists (f_bc f_uh : Function) (ret : ufl_expr),
              solve_poisson N degree [] = Return ((1, ret), [f_bc; f_uh]) /\
              value_of (evaluate 1 (PyCallable u_numpy) [f_bc; f_uh]) = Return E))
    in Hrun as (HlE & Hlh & Hentries).
  - split; [done|]. split; [done|]. intros i N HN.
    destruct (Hentries i N HN)
      as (E & fN & HE & (f_bc & f_uh & ret & Hsolve & Heval) & HfN & Hnz & Hhs).
    by exists f_bc, f_uh, ret, E, fN.
  - intros N h0 uh ue h1 E h2 Hsolve Heval. revert Hsolve.
    rewrite !solve_poisson_eq.
    destruct (poisson_solution N degree) as [[[f_bc f_uh] ret]|e]; [|done].
    rewrite !outcome_bind_Return. intros [= <- <- <-].
    exists f_bc, f_uh, ret. split; [done|].
    destruct (Hreads f_uh (PyCallable u_numpy)) as [p Hp].
    rewrite (Hp _ _ (lookup_heap_second h0 f_bc f_uh)) in Heval.
    rewrite (Hp 1 [f_bc; f_uh] eq_refl).
    destruct p as [[v new]|e]; [|done].
    rewrite outcome_bind_Return in *. by injection Heval as -> _.
Qed.

(** The loop over the degrees from an accumulator on. *)
Lemma study_degrees_from (solve : Z -> Z -> Py (loc * ufl_expr))
    (evaluate : loc -> pyval -> Py float) :
  forall (ds : list Z) (acc : list (list float)) (h : heap),
    match for_each ds
            (fun acc degree =>
               '(Es, hs) ← study_loop solve evaluate degree Ns;
               r ← lift (rates Es hs);
               mret (acc ++ [r])) acc h with
    | Return (rs, _) =>
        exists new, rs = acc ++ new /\ Forall2 (rates_of_loop solve evaluate) ds new
    | Raise e =>
        exists degree h1, degree ∈ ds /\ study_loop solve evaluate degree Ns h1 = Raise e
    end.
Proof.
  intros ds. induction ds as [|d ds IH]; intros acc h.
  { simpl. exists []. by rewrite app_nil_r. }
  cbn [for_each]. unfold mbind at 1, Py_bind at 1.
  unfold mbind at 1, Py_bind at 1.
  destruct (study_loop solve evaluate d Ns h) as [[[Es hs] h1]|e] eqn:Hloop.
  2:{ exists d, h. split; [left|done]. }
  destruct (study_loop_entries solve evaluate d Ns (fun _ _ => True) h Es hs h1
              ltac:(done) Hloop) as (HlE & Hlh & _).
  rewrite Py_bind_lift, rates_same_shape, outcome_bind_Return by congruence.
  unfold mret at 1, Py_ret at 1.
  specialize (IH (acc ++ [rate_entries Es hs]) h1).
  destruct (for_each ds _ _ h1) as [[rs h2]|e].
  - destruct IH as (new & -> & Hnew).
    exists (rate_entries Es hs :: new). split; [by rewrite <- app_assoc|].
    constructor; [|done]. split.
    + rewrite length_rate_entries by congruence. by rewrite HlE.
    + by exists Es, hs, h, h1.
  - destruct IH as (degree & h2 & Hin & Hraise).
    exists degree, h2. split; [by right|done].
Qed.

(** The studies over the degrees, with [solve_poisson] and an evaluator
    that only reads its argument: each list of rates is made of what the
    loop of its degree recorded. *)
Lemma study_degrees_record (evaluate : loc -> pyval -> Py float) (h : heap)
    (rs : list (list float)) (h' : heap) :
  reads_only_argument evaluate ->
  study_degrees solve_poisson evaluate h = Return (rs, h') ->
  Forall2 (fun degree r => exists Es hs,
             r = rate_entries Es hs /\ study_record evaluate degree Ns Es hs)
    degrees rs.
Proof.
  intros Hreads Hrun.
  pose proof (study_degrees_from solve_poisson evaluate degrees [] h) as Hfrom.
  unfold study_degrees in Hrun. rewrite Hrun in Hfrom.
  destruct Hfrom as (new & -> & Hnew).
  eapply Forall2_impl; [exact Hnew|].
  intros degree r (_ & Es & hs & h1 & h2 & Hloop & ->).
  exists Es, hs. split; [done|]. by eapply study_loop_isolated.
Qed.

End StudyCellLemmas.

(** ** Equal interpolants *)



(** * The claims *)

Section Claims.

Context `{Libm} `{Dolfinx}.

(** C1 (as the code has it).  The rate computation makes no check of the
    errors: it never ends with [DegenerateSample], and for error and
    mesh-size arrays of one length, whatever the sign of the errors, it
    returns the [n - 1] rates. *)
Theorem rates_no_degenerate_sample (Es hs : list float) :
  rates Es hs <> Raise DegenerateSample /\
  (length Es = length hs ->
   exists rs, rates Es hs = Return rs /\ length rs = length Es - 1).
Proof.
  split.
  - by intros [[=] _]%rates_Raise.
  - intros Hlen. exists (rate_entries Es hs).
    split; [by apply rates_same_shape | by apply length_rate_entries].
Qed.

(** C2 (as the code has it).  The rate computation makes no check of the
    order of the mesh sizes: the only exception it can end with is numpy's
    [ValueError], for arrays of different lengths; so it never ends with
    [UnorderedSampleSequence], strictly decreasing mesh sizes or not. *)
Theorem rates_only_ValueError (Es hs : list float) (e : exn) :
  rates Es hs = Raise e ->
  e = ValueError /\ length Es <> length hs /\ e <> UnorderedSampleSequence.
Proof.
  intros [-> Hlen]%rates_Raise. done.
Qed.

(** C3 (as the code has it).  An exact solution that is not a UFL
    expression, be it a plain function or any other object, is handed
    unchanged to the interpolation of the library, in the space of [uh] by
    [error_infinity] and in the raised space by [error_L2].  Neither
    evaluator checks its kind: the only exceptions they end with are numpy's
    [ValueError] and the exceptions that calls into the library end with. *)
Theorem evaluators_pass_exact_on (h : heap) (uh : loc) (f : Function)
    (u_ex : pyval) (degree_raise : Z) :
  h !! uh = Some f ->
  isinstance_Expr u_ex = false ->
  let V := function_space f in
  let W := raised_space V degree_raise in
  error_infinity uh u_ex h =
    (arr ← fem_interpolate V u_ex;
     m ← infinity_value f arr;
     Return (m, h ++ [{| function_space := V; x_array := arr |}])) /\
  error_L2 uh u_ex degree_raise h =
    (_ ← fem_element (fs_mesh V) (fs_family V) (fs_degree V + degree_raise);
     arr_u ← fem_interpolate W (PyUfl (Coefficient f));
     arr_ex ← fem_interpolate W u_ex;
     diff ← difference_array W arr_u arr_ex;
     E ← L2_value W diff;
     Return (E, h ++ [ {| function_space := W; x_array := arr_u |};
                       {| function_space := W; x_array := arr_ex |};
                       {| function_space := W; x_array := diff |} ])) /\
  (forall e,
     error_infinity uh u_ex h = Raise e \/ error_L2 uh u_ex degree_raise h = Raise e ->
     e = ValueError \/ library_raises e).
Proof.
  intros Hf Hkind V W.
  assert (Hsrc : forall X, interpolation_source X u_ex = u_ex).
  { intros X. by destruct u_ex. }
  pose proof (error_infinity_eq h uh f u_ex Hf) as Hinf.
  pose proof (error_L2_eq h uh f u_ex degree_raise Hf) as HL2.
  cbv zeta in HL2. fold V in Hinf, HL2. fold W in HL2. rewrite Hsrc in Hinf, HL2.
  split; [done|]. split; [done|].
  intros e [He|He].
  - rewrite Hinf in He.
    apply bind_Raise_inv in He as [He|(arr & _ & He)].
    { right. right; left. eauto. }
    apply bind_Raise_inv in He as [He|(m & _ & [=])].
    left. by apply infinity_value_Raise in He.
  - rewrite HL2 in He.
    apply bind_Raise_inv in He as [He|(? & _ & He)].
    { right. left. eauto. }
    apply bind_Raise_inv in He as [He|(arr_u & _ & He)].
    { right. right; left. eauto. }
    apply bind_Raise_inv in He as [He|(arr_ex & _ & He)].
    { right. right; left. eauto. }
    apply bind_Raise_inv in He as [He|(diff & _ & He)].
    { left. by apply difference_array_Raise in He. }
    apply bind_Raise_inv in He as [He|(E & _ & [=])].
    right. by apply L2_value_Raise in He.
Qed.

(** C4.  For error and mesh-size arrays of one length [n], [rates] returns
    [n - 1] entries, and entry [i] (counted from 0) is
    [log(E_{i+1} / E_i) / log(h_{i+1} / h_i)] in binary64 arithmetic. *)
Theorem rates_pairwise_log_ratio (Es hs : list float) :
  length Es = length hs ->
  exists rs, rates Es hs = Return rs /\ length rs = length Es - 1 /\
    forall i Ep Ei hp hi,
      Es !! i = Some Ep -> Es !! S i = Some Ei ->
      hs !! i = Some hp -> hs !! S i = Some hi ->
      rs !! i = Some (libm_log (Ei / Ep) / libm_log (hi / hp))%float.
Proof.
  intros Hlen. exists (rate_entries Es hs). split_and!.
  - by apply rates_same_shape.
  - by apply length_rate_entries.
  - intros i Ep Ei hp hi. apply lookup_rate_entries.
Qed.


(** C7 (as the code has it).  For coefficient arrays of one shape, not empty
    on any rank, whose differences are numbers: [error_infinity]
    interpolates the exact solution into the function space of [u_h] itself
    (the new function it allocates lives in that space, no degree is
    raised) and returns the largest absolute difference of the
    degree-of-freedom coefficients over all ranks: every difference is
    below the result, and one of them is the result.  The value is read
    off the coefficient arrays alone.  Without these conditions the result
    need not be the maximum: a NaN difference on a rank after the first is
    dropped by the reduction, and [np.max] raises on a rank without
    coefficients. *)
Theorem error_infinity_max_dof_deviation (h : heap) (u_h : loc) (f : Function)
    (u_ex : pyval) (arr : dist (list float)) :
  let V := function_space f in
  let comm := mesh_comm (fs_mesh V) in
  h !! u_h = Some f ->
  fem_interpolate V (interpolation_source V u_ex) = Return arr ->
  (forall r, r <= comm_last comm ->
     x_array f r <> [] /\ length (x_array f r) = length (arr r)) ->
  (forall r i a b, r <= comm_last comm ->
     x_array f r !! i = Some a -> arr r !! i = Some b -> number (a - b)) ->
  exists m,
    error_infinity u_h u_ex h
      = Return (m, h ++ [{| function_space := V; x_array := arr |}]) /\
    (forall r i a b, r <= comm_last comm ->
       x_array f r !! i = Some a -> arr r !! i = Some b -> fle (abs (a - b)) m) /\
    (exists r i a b, r <= comm_last comm /\
       x_array f r !! i = Some a /\ arr r !! i = Some b /\ m = abs (a - b)).
Proof.
  intros V comm Hf Harr Hshape Hnum.
  rewrite (error_infinity_eq h u_h f u_ex Hf). fold V. rewrite Harr. simpl.
  unfold infinity_value. fold V comm.
  assert (Hlocal : forall r, r <= comm_last comm ->
            exists m, local_max_error (x_array f r) (arr r) = Return m /\ number m /\
              (forall i x y, x_array f r !! i = Some x -> arr r !! i = Some y ->
                 fle (abs (x - y)) m) /\
              (exists i x y, x_array f r !! i = Some x /\ arr r !! i = Some y /\
                 m = abs (x - y))).
  { intros r Hr. destruct (Hshape r Hr) as [Hne Hlen].
    apply local_max_error_spec; eauto. }
  destruct (on_ranks_total 0%float comm
              (fun r => local_max_error (x_array f r) (arr r))) as [v Hv].
  { intros r Hr. destruct (Hlocal r Hr) as (m & Hm & _). eauto. }
  rewrite Hv. simpl.
  assert (Hvr : forall r, r <= comm_last comm ->
            local_max_error (x_array f r) (arr r) = Return (v r)).
  { intros r Hr. by apply (on_ranks_Return _ _ _ _ Hv). }
  destruct (allreduce_MAX_spec comm v) as [Hbound (r0 & Hr0 & Hmax)].
  { intros r Hr. destruct (Hlocal r Hr) as (m & Hm & Hnm & _).
    rewrite (Hvr r Hr) in Hm. by injection Hm as ->. }
  eexists. split; [done|]. split.
  - intros r i a b Hr Ha Hb.
    destruct (Hlocal r Hr) as (m & Hm & _ & Hle & _).
    rewrite (Hvr r Hr) in Hm. injection Hm as <-.
    eapply fle_trans; [by eapply Hle | by apply Hbound].
  - destruct (Hlocal r0 Hr0) as (m & Hm & _ & _ & i & x & y & Hx & Hy & ->).
    rewrite (Hvr r0 Hr0) in Hm. injection Hm as Hm.
    exists r0, i, x, y. by rewrite Hmax.
Qed.

(** C8.  The library being a function of its arguments, repeated calls
    agree: called twice in a row on the same arguments, [error_infinity]
    and [error_L2] return the same value twice (or fail the first time),
    and a study loop run twice in a row fills [Es] and [hs] with the same
    binary64 values both times; so do the three study cells. *)
Theorem repeated_calls_agree :
  (forall h u_h u_ex,
     value_of (twice (error_infinity u_h u_ex) h)
     = value_of (once (error_infinity u_h u_ex) h)) /\
  (forall h uh u_ex degree_raise,
     value_of (twice (error_L2 uh u_ex degree_raise) h)
     = value_of (once (error_L2 uh u_ex degree_raise) h)) /\
  (forall h degree Ns,
     value_of (twice (study_loop solve_poisson error_infinity degree Ns) h)
     = value_of (once (study_loop solve_poisson error_infinity degree Ns) h)) /\
  (forall h degree_raise degree Ns,
     let evaluate := fun uh u => error_L2 uh u degree_raise in
     value_of (twice (study_loop solve_poisson evaluate degree Ns) h)
     = value_of (once (study_loop solve_poisson evaluate degree Ns) h)) /\
  (forall h, value_of (twice study_L2_degree1 h) = value_of (once study_L2_degree1 h)) /\
  (forall h, value_of (twice study_L2 h) = value_of (once study_L2 h)) /\
  (forall h, value_of (twice study_infinity h) = value_of (once study_infinity h)).
Proof.
  split_and!.
  - intros h u_h u_ex.
    apply (reads_only_argument_twice error_infinity);
      [apply error_infinity_reads_only_argument|].
    intros Hnone. exists RuntimeError. by apply deref_dangling.
  - intros h uh u_ex degree_raise.
    apply (reads_only_argument_twice (fun uh u => error_L2 uh u degree_raise));
      [apply error_L2_reads_only_argument|].
    intros Hnone. exists RuntimeError. by apply deref_dangling.
  - intros h degree Ns. apply heap_local_twice, study_loop_heap_local,
      error_infinity_reads_only_argument.
  - intros h degree_raise degree Ns evaluate. apply heap_local_twice,
      study_loop_heap_local, error_L2_reads_only_argument.
  - intros h. apply heap_local_twice, study_loop_heap_local,
      (error_L2_reads_only_argument 3).
  - intros h. apply heap_local_twice, study_degrees_heap_local,
      (error_L2_reads_only_argument 3).
  - intros h. apply heap_local_twice, study_degrees_heap_local,
      error_infinity_reads_only_argument.
Qed.

(** C9.  When [error_L2] returns, the three functions it has allocated (the
    interpolant of [uh], the interpolant of the exact solution, their
    difference) live in one space [W], which has the mesh and the element
    family of the space of [uh] and its degree plus [degree_raise]; the two
    interpolations were made into [W].  The default raise is 3. *)
Theorem error_L2_comparison_space (h : heap) (uh : loc) (f : Function)
    (u_ex : pyval) (degree_raise : Z) (E : float) (h' : heap) :
  h !! uh = Some f ->
  error_L2 uh u_ex degree_raise h = Return (E, h') ->
  let V := function_space f in
  exists (W : FunctionSpace) (u_W u_ex_W e_W : Function),
    h' = h ++ [u_W; u_ex_W; e_W] /\
    function_space u_W = W /\ function_space u_ex_W = W /\ function_space e_W = W /\
    fs_mesh W = fs_mesh V /\ fs_family W = fs_family V /\
    fs_degree W = (fs_degree V + degree_raise)%Z /\
    fem_interpolate W (PyUfl (Coefficient f)) = Return (x_array u_W) /\
    fem_interpolate W (interpolation_source W u_ex) = Return (x_array u_ex_W) /\
    error_L2_default uh u_ex = error_L2 uh u_ex 3.
Proof.
  intros Hf Hrun V. rewrite (error_L2_eq h uh f u_ex degree_raise Hf) in Hrun.
  cbv zeta in Hrun. fold V in Hrun.
  set (W := raised_space V degree_raise) in *.
  apply bind_Return_inv in Hrun as (? & _ & Hrun).
  apply bind_Return_inv in Hrun as (arr_u & Hu & Hrun).
  apply bind_Return_inv in Hrun as (arr_ex & Hex & Hrun).
  apply bind_Return_inv in Hrun as (diff & _ & Hrun).
  apply bind_Return_inv in Hrun as (E' & _ & [= _ <-]).
  exists W, {| function_space := W; x_array := arr_u |},
    {| function_space := W; x_array := arr_ex |},
    {| function_space := W; x_array := diff |}.
  split_and!; done.
Qed.

(** C10.  In the three study cells the error is computed against
    [u_numpy]: what a cell records for an entry [N] of [Ns] is the value its
    evaluator returns when called with [u_numpy] on the solution of
    [solve_poisson(N, degree)], and the rates of the second and third cell
    are made of these errors.  The expression [solve_poisson] returns with
    [uh] is not used: each cell is the same computation when
    [solve_poisson] returns any [other] expression in its place and the
    evaluator is handed [u_numpy] whatever the loop passes.  What
    [solve_poisson] does return there is the symbolic [u_ufl(x)]. *)
Theorem studies_compare_with_u_numpy (other : ufl_expr) (h : heap) :
  (forall Es hs h',
     study_L2_degree1 h = Return ((Es, hs), h') ->
     study_record error_L2_default 1 Ns Es hs) /\
  (forall rs h',
     study_L2 h = Return (rs, h') ->
     Forall2 (fun degree r => exists Es hs,
                r = rate_entries Es hs /\
                study_record (fun uh u => error_L2 uh u 3) degree Ns Es hs)
       degrees rs) /\
  (forall rs h',
     study_infinity h = Return (rs, h') ->
     Forall2 (fun degree r => exists Es hs,
                r = rate_entries Es hs /\ study_record error_infinity degree Ns Es hs)
       degrees rs) /\
  study_L2_degree1 h
    = study_loop (solve_discarding other) (against_u_numpy error_L2_default) 1 Ns h /\
  study_L2 h
    = study_degrees (solve_discarding other)
        (against_u_numpy (fun uh u => error_L2 uh u 3)) h /\
  study_infinity h
    = study_degrees (solve_discarding other) (against_u_numpy error_infinity) h /\
  (forall N degree uh ret h',
     solve_poisson N degree h = Return ((uh, ret), h') ->
     exists mesh, create_unit_square MPI_COMM_WORLD N N = Return mesh /\
                  ret = manufactured_expr (SpatialCoordinate mesh)).
Proof.
  split_and!.
  - intros Es hs h'. apply (study_loop_isolated error_L2_default).
    apply (error_L2_reads_only_argument 3).
  - intros rs h'. apply study_degrees_record, (error_L2_reads_only_argument 3).
  - intros rs h'. apply study_degrees_record, error_infinity_reads_only_argument.
  - apply study_loop_discarding.
  - apply (study_degrees_discarding (fun uh u => error_L2 uh u 3)).
  - apply study_degrees_discarding.
  - intros N degree uh ret h'. rewrite solve_poisson_eq. unfold poisson_solution.
    intros ([[f_bc f_uh] ret'] & Hsol & [= _ <- _])%bind_Return_inv.
    apply bind_Return_inv in Hsol as (mesh & Hmesh & Hsol). exists mesh.
    split; [done|]. rewrite !u_ufl_eq, !outcome_bind_Return in Hsol.
    apply bind_Return_inv in Hsol as (? & _ & Hsol).
    apply bind_Return_inv in Hsol as (? & _ & Hsol).
    apply bind_Return_inv in Hsol as (? & _ & Hsol).
    apply bind_Return_inv in Hsol as (? & _ & Hsol).
    apply bind_Return_inv in Hsol as (? & _ & [= _ _ <-]). done.
Qed.

End Claims.

(** ** The claims on the bench platform *)

Section OnBench.

#[local] Existing Instance Bench.libm.
#[local] Existing Instance Bench.dolfinx.

(** With a zero error next to a positive one the computation returns an
    infinite rate; with two zero errors, a NaN. *)
Example rates_zero_error :
  rates [0.5; 0]%float [0.25; 0.125]%float = Return [infinity].
Proof. vm_compute. reflexivity. Qed.

Example rates_zero_errors :
  rates [0; 0]%float [0.25; 0.125]%float = Return [nan].
Proof. vm_compute. reflexivity. Qed.

Example rates_negative_error :
  rates [0.5; -0.25]%float [0.25; 0.125]%float = Return [nan].
Proof. vm_compute. reflexivity. Qed.

(** C1, counterexample: with the errors [0.5, 0] on the mesh sizes
    [0.25, 0.125] no mathematical library makes the computation end with
    [DegenerateSample]. *)
Lemma rates_zero_error_not_degenerate :
  ~ (exists L : Libm, @rates L [0.5; 0]%float [0.25; 0.125]%float = Raise DegenerateSample).
Proof. intros [L HL]. vm_compute in HL. discriminate. Qed.

Lemma rates_no_degenerate_sample_witness :
  rates [0.5; 0]%float [0.25; 0.125]%float <> Raise DegenerateSample /\
  exists rs, rates [0.5; 0]%float [0.25; 0.125]%float = Return rs /\
             length rs = 1.
Proof.
  destruct (rates_no_degenerate_sample [0.5; 0]%float [0.25; 0.125]%float)
    as [Hno Hret].
  split; [exact Hno | exact (Hret eq_refl)].
Defined.

(** C2, counterexample: with the mesh sizes [0.125, 0.25], which increase,
    no mathematical library makes the computation end with
    [UnorderedSampleSequence]; on the bench it returns the rate [-1]. *)
Lemma rates_unordered_not_refused :
  ~ (exists L : Libm,
       @rates L [0.5; 0.25]%float [0.125; 0.25]%float = Raise UnorderedSampleSequence).
Proof. intros [L HL]. vm_compute in HL. discriminate. Qed.

Example rates_unordered :
  rates [0.5; 0.25]%float [0.125; 0.25]%float = Return [(-1)%float].
Proof. vm_compute. reflexivity. Qed.

Lemma rates_only_ValueError_witness :
  ValueError = ValueError /\
  length [1; 0.5; 0.25; 0.125]%float <> length [0.5; 0.25; 0.125]%float /\
  ValueError <> UnorderedSampleSequence.
Proof.
  apply (rates_only_ValueError
           [1; 0.5; 0.25; 0.125]%float [0.5; 0.25; 0.125]%float ValueError).
  vm_compute. reflexivity.
Defined.

(** With [E = h ** 2] on halved mesh sizes the bench returns the rate 2,
    and with [E = 3 * h ** 3] the rate 3. *)
Example rates_quadratic :
  rates [0.25; 0.0625; 0.015625]%float [0.5; 0.25; 0.125]%float
  = Return [2; 2]%float.
Proof. vm_compute. reflexivity. Qed.

Example rates_cubic :
  rates [0.375; 0.046875; 0.005859375]%float [0.5; 0.25; 0.125]%float
  = Return [3; 3]%float.
Proof. vm_compute. reflexivity. Qed.

Lemma rates_pairwise_log_ratio_witness :
  exists rs,
    rates [0.25; 0.0625; 0.015625]%float [0.5; 0.25; 0.125]%float
      = Return rs /\
    length rs = 2 /\
    rs !! 1 = Some (Bench.log (0.015625 / 0.0625) / Bench.log (0.125 / 0.25))%float.
Proof.
  destruct (rates_pairwise_log_ratio
              [0.25; 0.0625; 0.015625]%float [0.5; 0.25; 0.125]%float eq_refl)
    as (rs & Hrs & Hlen & Hentry).
  exists rs. split; [exact Hrs|]. split; [exact Hlen|].
  exact (Hentry 1 _ _ _ _ eq_refl eq_refl eq_refl eq_refl).
Defined.

(** C7 on the bench: [error_infinity] of [uh2] against [u_numpy]. *)
Lemma error_infinity_max_dof_deviation_witness :
  exists m,
    value_of (error_infinity 0 (PyCallable u_numpy) [Bench.uh2])
      = Return m /\
    fle (abs (1 - 1)) m.
Proof.
  destruct (error_infinity_max_dof_deviation
              [Bench.uh2] 0 Bench.uh2 (PyCallable u_numpy) Bench.exact2)
    as (m & Hm & Hbound & _).
  - reflexivity.
  - vm_compute. reflexivity.
  - intros r Hr. assert (Hcases : r = 0 \/ r = 1) by (simpl in Hr; lia).
    destruct Hcases as [-> | ->]; split; simpl; done.
  - intros r i a b Hr Ha Hb.
    assert (Hcases : r = 0 \/ r = 1) by (simpl in Hr; lia).
    destruct Hcases as [-> | ->];
      repeat (destruct i as [|i];
              [ injection Ha as <-; injection Hb as <-; vm_compute; reflexivity | ]);
      discriminate.
  - exists m. split; [by rewrite Hm|].
    apply (Hbound 0 0 1%float 1%float); [simpl; lia | reflexivity | ].
    vm_compute. reflexivity.
Defined.

(** C3, counterexample: a compiled [dolfinx.fem.Expression] is neither a
    UFL expression nor a Python function, and both evaluators return a
    number for it; for [None] both end with the [TypeError] of the
    interpolation, not with [UnsupportedExactRepresentation]. *)
Lemma evaluators_accept_other_objects :
  isinstance_Expr Bench.compiled2 = false /\
  (exists m, value_of (error_infinity 0 Bench.compiled2 [Bench.uh2]) = Return m) /\
  (exists E, value_of (error_L2 0 Bench.compiled2 3 [Bench.uh2]) = Return E) /\
  value_of (error_infinity 0 PyNone [Bench.uh2]) = Raise TypeError /\
  value_of (error_L2 0 PyNone 3 [Bench.uh2]) = Raise TypeError.
Proof.
  split_and!; [reflexivity | | | vm_compute; reflexivity..];
    vm_compute; eexists; reflexivity.
Qed.

Lemma evaluators_pass_exact_on_witness :
  TypeError = ValueError \/ library_raises TypeError.
Proof.
  destruct (evaluators_pass_exact_on [Bench.uh2] 0 Bench.uh2 PyNone 3 eq_refl eq_refl)
    as (_ & _ & Hraise).
  apply Hraise. left. vm_compute. reflexivity.
Defined.

(** C9 on the bench: [uh2] has degree 1, the comparison space degree 4. *)
Lemma error_L2_comparison_space_witness :
  exists (W : FunctionSpace) (e_W : Function),
    function_space e_W = W /\
    fs_mesh W = Bench.mesh2 /\ fs_family W = "CG"%string /\ fs_degree W = 4%Z.
Proof.
  destruct (error_L2 0 (PyCallable u_numpy) 3 [Bench.uh2]) as [[E h']|e] eqn:Hrun;
    [|vm_compute in Hrun; discriminate].
  destruct (error_L2_comparison_space [Bench.uh2] 0 Bench.uh2 (PyCallable u_numpy) 3
              E h' eq_refl Hrun)
    as (W & u_W & u_ex_W & e_W & _ & _ & _ & He & Hmesh & Hfamily & Hdegree & _).
  exists W, e_W. split_and!; [exact He | exact Hmesh | exact Hfamily | exact Hdegree].
Defined.

(** The three kinds of exact solution agree on the bench. *)
Example error_L2_kinds_agree :
  value_of (error_L2 0 (PyCallable u_numpy) 3 [Bench.uh2])
  = value_of (error_L2 0 (PyUfl (manufactured_expr (SpatialCoordinate Bench.mesh2))) 3
                [Bench.uh2]) /\
  value_of (error_L2 0 (PyCallable u_numpy) 3 [Bench.uh2])
  = value_of (error_L2 0 Bench.compiled2 3 [Bench.uh2]).
Proof. split; vm_compute; reflexivity. Qed.

(** The studies on the bench: the solver there is off by [h ** (degree + 1)]
    at every node, and the third study finds the rates [degree + 1]. *)
Example study_infinity_degree1_on_bench :
  value_of (study_loop solve_poisson error_infinity 1 Ns [])
  = Return ([0.0625; 0.015625; 0.00390625; 0.0009765625; 0.000244140625]%float,
            [0.25; 0.125; 0.0625; 0.03125; 0.015625]%float).
Proof. vm_compute. reflexivity. Qed.

Example study_infinity_on_bench :
  value_of (study_infinity [])
  = Return [[2; 2; 2; 2]; [3; 3; 3; 3]; [4; 4; 4; 4]; [5; 5; 5; 5]]%float.
Proof. vm_compute. reflexivity. Qed.



(** C7, counterexample: with a NaN among the coefficients of [u_h] on
    the second rank, [np.max] makes the local maximum of that rank a NaN,
    the reduction with [MPI.MAX] then keeps the value of the first rank, and
    the result is below the deviation of another coefficient of the second
    rank: it is not the maximum deviation. *)
Lemma error_infinity_not_the_maximum :
  exists (m a b : float),
    value_of (error_infinity 0 (PyCallable u_numpy) [uh_nan2]) = Return m /\
    fem_interpolate Bench.space2 (PyCallable u_numpy) = Return Bench.exact2 /\
    x_array uh_nan2 1 !! 1 = Some a /\ Bench.exact2 1 !! 1 = Some b /\
    (m <? abs (a - b))%float = true.
Proof.
  destruct (error_infinity 0 (PyCallable u_numpy) [uh_nan2]) as [[m h']|e] eqn:Hrun;
    [|vm_compute in Hrun; discriminate].
  vm_compute in Hrun. injection Hrun as <- _.
  eexists _, _, _. split; [reflexivity|]. split; [vm_compute; reflexivity|].
  split; [reflexivity|]. split; [reflexivity|]. vm_compute. reflexivity.
Qed.

(** C10 on the bench: entry 1 of the first study is the error of the
    solution for [N = 8] against [u_numpy]. *)
Lemma studies_compare_with_u_numpy_witness :
  exists (Es hs : list float) (h' : heap) (f_bc f_uh : Function) (ret : ufl_expr)
         (E : float),
    study_L2_degree1 [] = Return ((Es, hs), h') /\
    solve_poisson 8 1 [] = Return ((1, ret), [f_bc; f_uh]) /\
    value_of (error_L2 1 (PyCallable u_numpy) 3 [f_bc; f_uh]) = Return E /\
    Es !! 1 = Some E.
Proof.
  destruct (study_L2_degree1 []) as [[[Es hs] h']|e] eqn:Hrun;
    [|vm_compute in Hrun; discriminate].
  destruct (studies_compare_with_u_numpy (FloatValue 0) []) as (Hfirst & _).
  destruct (Hfirst Es hs h' Hrun) as (_ & _ & Hentries).
  destruct (Hentries 1 8%Z eq_refl)
    as (f_bc & f_uh & ret & E & fN & Hsolve & Heval & HE & _).
  exists Es, hs, h', f_bc, f_uh, ret, E.
  split_and!; [reflexivity|exact Hsolve|exact Heval|exact HE].
Defined.

End OnBench.

(** * Further properties of the notebook *)

(** ** The rate computation on arrays of any length *)

Section RatesShape.

Context `{Libm}.

Lemma length_log (a : list float) : length (np.log a) = length a.
Proof. unfold np.log. apply length_fmap. Qed.

Lemma broadcast2_length f (a b d : list float) :
  np.broadcast2 f a b = Return d ->
  (length a = length b \/ length a = 1 \/ length b = 1) /\
  length d = if decide (length a = 1) then length b else length a.
Proof.
  unfold np.broadcast2. destruct (decide (length a = length b)) as [Heq|Hne].
  - intros [= <-]. split; [by left|].
    rewrite length_zip_with. destruct (decide _); lia.
  - destruct a as [|x [|x' a]], b as [|y [|y' b]]; intros [= <-]; simpl in *;
      rewrite ?length_fmap; simpl; (split; [auto | done]).
Qed.

(** X1.  [rates] fails, with numpy's [ValueError], exactly when the two
    arrays have different numbers of consecutive pairs and neither has
    exactly one; otherwise it returns, an array of two samples being
    stretched over the pairs of the other, and arrays of fewer than two
    samples giving no rate at all. *)
Theorem rates_shape (Es hs : list float) :
  match rates Es hs with
  | Return rs =>
      (pairs Es = pairs hs \/ pairs Es = 1 \/ pairs hs = 1) /\
      length rs = (if decide (pairs Es = 1) then pairs hs else pairs Es)
  | Raise e =>
      e = ValueError /\ pairs Es <> pairs hs /\ pairs Es <> 1 /\ pairs hs <> 1
  end.
Proof.
  rewrite rates_unfold. unfold np.divide, pairs.
  destruct (np.broadcast2 _ _ _) as [rs|e] eqn:Hrs.
  - apply broadcast2_length in Hrs.
    by rewrite !length_log, !length_consecutive_quotients in Hrs.
  - pose proof Hrs as [-> Hne]%broadcast2_Raise.
    rewrite !length_log, !length_consecutive_quotients in Hne.
    split; [done|]. split; [done|].
    unfold np.broadcast2 in Hrs. rewrite decide_False in Hrs
      by (by rewrite !length_log, !length_consecutive_quotients).
    assert (HlE := length_consecutive_quotients Es).
    assert (Hlh := length_consecutive_quotients hs).
    rewrite <- (length_log (zip_with _ _ (np.init_slice Es))) in HlE.
    rewrite <- (length_log (zip_with _ _ (np.init_slice hs))) in Hlh.
    destruct (np.log (zip_with _ _ (np.init_slice Es))) as [|x [|x' a]],
             (np.log (zip_with _ _ (np.init_slice hs))) as [|y [|y' b]];
      simpl in *; try discriminate; lia.
Qed.

(** X2.  With exactly two error samples there is one error quotient, and
    numpy pairs it with every mesh-size quotient: the result has one entry
    per pair of [hs], however many there are. *)
Theorem rates_two_samples (E0 E1 : float) (hs : list float) :
  rates [E0; E1] hs
  = Return ((fun qh => libm_log (E1 / E0) / libm_log qh)%float
              <$> zip_with PrimFloat.div (np.tail_slice hs) (np.init_slice hs)).
Proof.
  rewrite rates_unfold. unfold np.divide, np.broadcast2. simpl.
  set (qh := zip_with PrimFloat.div (np.tail_slice hs) (np.init_slice hs)).
  destruct (decide _) as [Hlen|Hlen]; f_equal.
  - rewrite length_log in Hlen. destruct qh as [|q [|q' qh]]; done.
  - unfold np.log. by rewrite <- list_fmap_compose.
Qed.

End RatesShape.

(** ** The manufactured solution on point arrays *)

(** X3.  [u_numpy] is vectorised over the points: from the first two rows
    of the point array, of one length, it returns one value per point,
    [cos(2 pi x) * cos(2 pi y)], and never looks at a third row; a point
    array with fewer than two rows is an [IndexError]. *)
Theorem u_numpy_pointwise `{Libm} (x : points) :
  (forall x0 x1,
     x !! 0 = Some x0 -> x !! 1 = Some x1 -> length x0 = length x1 ->
     u_numpy x
     = Return (zip_with
                 (fun a b => libm_cos (2 * np.pi * a) * libm_cos (2 * np.pi * b))%float
                 x0 x1)) /\
  (length x < 2 -> u_numpy x = Raise IndexError).
Proof.
  split.
  - intros x0 x1 H0 H1 Hlen. unfold points in *. unfold u_numpy, u_ex, numpy_module.
    cbn [mod_getitem mod_mul mod_cos mod_rmul mod_pi].
    unfold getitem. rewrite H0, H1, !outcome_bind_Return.
    unfold np.multiply. rewrite broadcast2_same_shape.
    + f_equal. unfold np.cos, np.scale.
      rewrite <- !list_fmap_compose. by rewrite zip_with_fmap_l, zip_with_fmap_r.
    + unfold np.cos, np.scale. by rewrite !length_fmap.
  - intros Hlen. unfold u_numpy, u_ex, numpy_module.
    cbn [mod_getitem mod_mul mod_cos mod_rmul mod_pi]. unfold getitem.
    destruct x as [|x0 [|x1 x]]; simpl in *; [done|done|lia].
Qed.

(** ** What [solve_poisson] does *)

Section SolvePoisson.

Context `{Libm} `{Dolfinx}.

(** X4.  When [solve_poisson(N, degree)] returns, it has appended two
    functions to the heap, both in the space of "CG" elements of that degree
    on the mesh of [N] by [N] cells: the boundary function [u_bc], the
    interpolant of [u_numpy], and the solution [uh], whose coefficients are
    what the linear solve returned for the forms [a] and [L] of the Poisson
    problem with source [-div(grad(u_ufl(x)))], the Dirichlet condition
    [u_bc] on the dofs of all boundary facets, and the options of an LU
    solve.  The reference it returns is the one to [uh], the expression it
    returns is [u_ufl] on the coordinates of that same mesh, and every
    function that existed before is still there, unchanged. *)
Theorem solve_poisson_effect (h : heap) (N degree : Z) (uh : loc) (ret : ufl_expr)
    (h' : heap) :
  solve_poisson N degree h = Return ((uh, ret), h') ->
  exists (mesh : Mesh) (f_bc f_uh : Function) facets dofs,
    let V := {| fs_mesh := mesh; fs_family := "CG"; fs_degree := degree |} in
    let dim := (topology_dim mesh - 1)%Z in
    let f := Neg (Div (Grad (manufactured_expr (SpatialCoordinate mesh)))) in
    let a := Integral (Inner (Grad (TrialFunction V)) (Grad (TestFunction V))) in
    let L := Integral (Product f (TestFunction V)) in
    create_unit_square MPI_COMM_WORLD N N = Return mesh /\
    h' = h ++ [f_bc; f_uh] /\
    h' !! uh = Some f_uh /\
    function_space f_bc = V /\ function_space f_uh = V /\
    fem_interpolate V (PyCallable u_numpy) = Return (x_array f_bc) /\
    locate_entities_boundary mesh dim (fun x => replicate (shape1 x) true)
      = Return facets /\
    locate_dofs_topological V dim facets = Return dofs /\
    fem_solve a L [ {| bc_value := f_bc; bc_dofs := dofs |} ]
      [("ksp_type", "preonly"); ("pc_type", "lu")]%string = Return (x_array f_uh) /\
    ret = manufactured_expr (SpatialCoordinate mesh) /\
    (forall l f, h !! l = Some f -> h' !! l = Some f).
Proof.
  rewrite solve_poisson_eq. unfold poisson_solution.
  intros ([[f_bc f_uh] ret'] & Hsol & [= <- <- <-])%bind_Return_inv.
  apply bind_Return_inv in Hsol as (mesh & Hmesh & Hsol).
  rewrite !u_ufl_eq, !outcome_bind_Return in Hsol.
  apply bind_Return_inv in Hsol as (? & _ & Hsol).
  apply bind_Return_inv in Hsol as (arr_bc & Hbc & Hsol).
  apply bind_Return_inv in Hsol as (facets & Hfacets & Hsol).
  apply bind_Return_inv in Hsol as (dofs & Hdofs & Hsol).
  apply bind_Return_inv in Hsol as (arr & Harr & [= <- <- <-]).
  exists mesh. eexists _, _, facets, dofs. cbv zeta. split_and!; try done.
  - apply lookup_heap_second.
  - intros l f Hl. by apply lookup_heap_old.
Qed.

(** X5.  [solve_poisson] has no failure of its own and does not try
    again: it ends with an exception exactly when one of the calls it makes
    into the library (the mesh, the element, the interpolation of [u_numpy],
    the boundary facets, their dofs, the linear solve, in this order and
    with the arguments [solve_poisson] gives them) ends with that exception,
    the calls before it having returned. *)
Theorem solve_poisson_failure (h : heap) (N degree : Z) (e : exn) :
  solve_poisson N degree h = Raise e <-> poisson_failure N degree e.
Proof.
  rewrite solve_poisson_eq. unfold poisson_solution, poisson_failure.
  destruct (create_unit_square MPI_COMM_WORLD N N) as [mesh|e0];
    rewrite ?outcome_bind_Return, ?outcome_bind_Raise.
  2:{ split; [intros [= ->]; by left|]. by intros [[= ->]|(? & [=] & _)]. }
  rewrite !u_ufl_eq, !outcome_bind_Return. cbv zeta.
  set (V := {| fs_mesh := mesh; fs_family := "CG"; fs_degree := degree |}).
  transitivity
    (fem_element mesh "CG" degree = Raise e \/
     (exists u, fem_element mesh "CG" degree = Return u) /\
     (fem_interpolate V (PyCallable u_numpy) = Raise e \/
      exists arr_bc, fem_interpolate V (PyCallable u_numpy) = Return arr_bc /\
        (locate_entities_boundary mesh (topology_dim mesh - 1)
           (fun x => replicate (shape1 x) true) = Raise e \/
         exists facets,
           locate_entities_boundary mesh (topology_dim mesh - 1)
             (fun x => replicate (shape1 x) true) = Return facets /\
           (locate_dofs_topological V (topology_dim mesh - 1) facets = Raise e \/
            exists dofs,
              locate_dofs_topological V (topology_dim mesh - 1) facets = Return dofs /\
              fem_solve
                (Integral (Inner (Grad (TrialFunction V)) (Grad (TestFunction V))))
                (Integral
                   (Product
                      (Neg (Div (Grad (manufactured_expr (SpatialCoordinate mesh)))))
                      (TestFunction V)))
                [ {| bc_value := {| function_space := V; x_array := arr_bc |};
                     bc_dofs := dofs |} ]
                [("ksp_type", "preonly"); ("pc_type", "lu")]%string = Raise e)))).
  2:{ split; [intros Hfail; right; by exists mesh|].
      by intros [[=]|(? & [= <-] & Hfail)]. }
  destruct (fem_element mesh "CG" degree) as [u|e0];
    rewrite ?outcome_bind_Return, ?outcome_bind_Raise.
  2:{ split; [intros [= ->]; by left|]. by intros [[= ->]|[(? & [=]) _]]. }
  destruct (fem_interpolate V (PyCallable u_numpy)) as [arr_bc|e0];
    rewrite ?outcome_bind_Return, ?outcome_bind_Raise.
  2:{ split; [intros [= ->]; right; split; [by exists u|by left]|].
      by intros [[=]|[_ [[= ->]|(? & [=] & _)]]]. }
  destruct (locate_entities_boundary mesh (topology_dim mesh - 1)
              (fun x => replicate (shape1 x) true)) as [facets|e0];
    rewrite ?outcome_bind_Return, ?outcome_bind_Raise.
  2:{ split.
      - intros [= ->]. right. split; [by exists u|]. right. exists arr_bc.
        split; [done|]. by left.
      - by intros [[=]|[_ [[=]|(? & [= <-] & [[= ->]|(? & [=] & _)])]]]. }
  destruct (locate_dofs_topological V (topology_dim mesh - 1) facets)
    as [dofs|e0] eqn:Hdofs;
    rewrite ?outcome_bind_Return, ?outcome_bind_Raise.
  2:{ split.
      - intros [= ->]. right. split; [by exists u|]. right. exists arr_bc.
        split; [done|]. right. exists facets. split; [done|]. by left.
      - intros [[=]|[_ [[=]|(? & [= <-] & [[=]|(? & [= <-] & Hfail)])]]].
        rewrite Hdofs in Hfail. by destruct Hfail as [[= ->]|(? & [=] & _)]. }
  destruct (fem_solve _ _ _ _) as [arr|e0] eqn:Hsolve;
    rewrite ?outcome_bind_Return, ?outcome_bind_Raise.
  - split; [done|].
    intros [[=]|[_ [[=]|(? & [= <-] & [[=]|(? & [= <-] & Hfail)])]]].
    rewrite Hdofs in Hfail. destruct Hfail as [[=]|(? & [= <-] & Hfail)].
    rewrite Hsolve in Hfail. done.
  - split.
    + intros [= ->]. right. split; [by exists u|]. right. exists arr_bc.
      split; [done|]. right. exists facets. split; [done|]. right. exists dofs.
      split; [done|exact Hsolve].
    + intros [[=]|[_ [[=]|(? & [= <-] & [[=]|(? & [= <-] & Hfail)])]]].
      rewrite Hdofs in Hfail. destruct Hfail as [[=]|(? & [= <-] & Hfail)].
      rewrite Hsolve in Hfail. by injection Hfail as ->.
Qed.

End SolvePoisson.

(** ** Maxima, with or without NaNs *)

Lemma maximum_select (a b : float) : np.maximum a b = a \/ np.maximum a b = b.
Proof.
  unfold np.maximum. destruct (is_nan a), (is_nan b), (a <? b)%float; auto.
Qed.

Lemma MAX_select (a b : float) : MPI.MAX a b = a \/ MPI.MAX a b = b.
Proof. unfold MPI.MAX. destruct (a <? b)%float; auto. Qed.

Lemma foldl_select (op : float -> float -> float) (x : float) (xs : list float) :
  (forall a b, op a b = a \/ op a b = b) -> foldl op x xs ∈ x :: xs.
Proof.
  intros Hop. revert x. induction xs as [|y ys IH]; intros x; simpl.
  - apply list_elem_of_here.
  - pose proof (IH (op x y)) as Hin. apply elem_of_cons in Hin as [Hin|Hin].
    + rewrite Hin. destruct (Hop x y) as [-> | ->];
        [apply list_elem_of_here | apply list_elem_of_further, list_elem_of_here].
    + by do 2 apply list_elem_of_further.
Qed.

(** [np.maximum] keeps a NaN once it has met one. *)
Lemma foldl_maximum_nan (x : float) (xs : list float) :
  (exists y, y ∈ x :: xs /\ is_nan y = true) ->
  is_nan (foldl np.maximum x xs) = true.
Proof.
  revert x. induction xs as [|y ys IH]; intros x (z & Hin & Hz); simpl.
  - apply elem_of_cons in Hin as [->|Hin]; [done|]. by apply elem_of_nil in Hin.
  - apply IH. destruct (is_nan x) eqn:Hx.
    + exists (np.maximum x y). split; [apply list_elem_of_here|].
      unfold np.maximum. by rewrite Hx.
    + apply elem_of_cons in Hin as [->|Hin]; [congruence|].
      apply elem_of_cons in Hin as [->|Hin].
      * exists (np.maximum x y). split; [apply list_elem_of_here|].
        unfold np.maximum. by rewrite Hx, Hz.
      * exists z. split; [by apply list_elem_of_further|done].
Qed.

Lemma broadcast2_elem f (a b d : list float) (z : float) :
  np.broadcast2 f a b = Return d -> z ∈ d ->
  exists x y, x ∈ a /\ y ∈ b /\ z = f x y.
Proof.
  unfold np.broadcast2. destruct (decide _) as [Hlen|Hlen].
  - intros [= <-] (i & Hi)%list_elem_of_lookup_1.
    apply lookup_zip_with_Some in Hi as (x & y & -> & Hx & Hy).
    exists x, y. eauto using list_elem_of_lookup_2.
  - destruct a as [|x [|x' a]].
    + destruct b as [|y [|y' b]]; intros [= <-] Hz; by apply elem_of_nil in Hz.
    + intros Hd Hz. assert (Hd' : d = f x <$> b) by congruence. subst d.
      apply list_elem_of_fmap_1 in Hz as (y0 & -> & Hy0).
      exists x, y0. split; [apply list_elem_of_here|done].
    + destruct b as [|y [|y' b]]; try done.
      intros Hd Hz.
      assert (Hd' : d = (fun x0 => f x0 y) <$> (x :: x' :: a)) by congruence.
      subst d. apply list_elem_of_fmap_1 in Hz as (x0 & -> & Hx0).
      exists x0, y. split; [done|]. split; [apply list_elem_of_here|done].
Qed.

Lemma local_max_error_select (a b : list float) (m : float) :
  local_max_error a b = Return m ->
  exists x y, x ∈ a /\ y ∈ b /\ m = abs (x - y).
Proof.
  unfold local_max_error. intros (d & Hd & Hmax)%bind_Return_inv.
  unfold np.max in Hmax. destruct (np.absolute d) as [|z zs] eqn:Hz; [done|].
  injection Hmax as <-.
  pose proof (foldl_select np.maximum z zs maximum_select) as Hin.
  rewrite <- Hz in Hin. unfold np.absolute in Hin.
  apply list_elem_of_fmap_1 in Hin as (w & -> & Hw).
  destruct (broadcast2_elem _ _ _ _ _ Hd Hw) as (x & y & Hx & Hy & ->). eauto.
Qed.

Lemma allreduce_MAX_select (c : Comm) (v : dist float) :
  exists r, r <= comm_last c /\ MPI.allreduce c v MPI.MAX = v r.
Proof.
  rewrite allreduce_fold.
  pose proof (foldl_select MPI.MAX (v 0) (v <$> seq 1 (comm_last c)) MAX_select) as Hin.
  change (v 0 :: (v <$> seq 1 (comm_last c))) with (v <$> seq 0 (S (comm_last c))) in Hin.
  apply list_elem_of_fmap_1 in Hin as (r & Hr & Hin%elem_of_seq).
  exists r. split; [lia|done].
Qed.

(** ** More on the evaluators *)

Section EvaluatorsMore.

Context `{Libm} `{Dolfinx}.

Lemma error_infinity_Return_inv (h : heap) (u_h : loc) (u_ex : pyval) (m : float)
    (h' : heap) :
  error_infinity u_h u_ex h = Return (m, h') ->
  exists f arr,
    h !! u_h = Some f /\
    fem_interpolate (function_space f) (interpolation_source (function_space f) u_ex)
      = Return arr /\
    infinity_value f arr = Return m /\
    h' = h ++ [{| function_space := function_space f; x_array := arr |}].
Proof.
  destruct (h !! u_h) as [f|] eqn:Hf.
  - rewrite (error_infinity_eq h u_h f u_ex Hf).
    intros (arr & Harr & Hrun)%bind_Return_inv.
    apply bind_Return_inv in Hrun as (m' & Hm & [= <- <-]). eauto 6.
  - unfold error_infinity. by rewrite deref_dangling.
Qed.

(** X7.  Whatever the coefficients are, NaNs and infinities included, the
    value [error_infinity] returns is the absolute value of the difference
    of a coefficient of [u_h] and a coefficient of the interpolant, both
    held by one rank; so it is never below zero. *)
Theorem error_infinity_is_a_difference (h : heap) (u_h : loc) (u_ex : pyval)
    (m : float) (h' : heap) :
  error_infinity u_h u_ex h = Return (m, h') ->
  exists f arr r a b,
    h !! u_h = Some f /\
    fem_interpolate (function_space f) (interpolation_source (function_space f) u_ex)
      = Return arr /\
    r <= comm_last (mesh_comm (fs_mesh (function_space f))) /\
    a ∈ x_array f r /\ b ∈ arr r /\
    m = abs (a - b) /\ (m <? 0)%float = false.
Proof.
  intros (f & arr & Hf & Harr & Hval & _)%error_infinity_Return_inv.
  unfold infinity_value in Hval.
  apply bind_Return_inv in Hval as (v & Hv & [= <-]).
  destruct (allreduce_MAX_select (mesh_comm (fs_mesh (function_space f))) v)
    as (r & Hr & Hmax).
  apply on_ranks_Return with (r := r) in Hv; [|done].
  apply local_max_error_select in Hv as (a & b & Ha & Hb & Hab).
  exists f, arr, r, a, b. rewrite Hmax, Hab.
  split_and!; try done. apply abs_not_negative.
Qed.

(** X8.  Both evaluators only read: when they return, the heap is the one
    they started from with the functions they created appended (one for
    [error_infinity], in the space of [u_h]; three for [error_L2]), and
    every function that existed before, [u_h] included, is unchanged. *)
Theorem evaluators_read_only (h : heap) (uh : loc) (u_ex : pyval) (E : float)
    (h' : heap) :
  (error_infinity uh u_ex h = Return (E, h') ->
   exists f g, h !! uh = Some f /\ h' = h ++ [g] /\
     function_space g = function_space f /\
     forall l f', h !! l = Some f' -> h' !! l = Some f') /\
  (forall degree_raise,
   error_L2 uh u_ex degree_raise h = Return (E, h') ->
   exists f new, h !! uh = Some f /\ h' = h ++ new /\ length new = 3 /\
     forall l f', h !! l = Some f' -> h' !! l = Some f').
Proof.
  split.
  - intros (f & arr & Hf & _ & _ & ->)%error_infinity_Return_inv.
    eexists f, _. split_and!; try done. intros l f' Hl. by apply lookup_heap_old.
  - intros degree_raise Hrun. destruct (h !! uh) as [f|] eqn:Hf.
    + rewrite (error_L2_eq h uh f u_ex degree_raise Hf) in Hrun. cbv zeta in Hrun.
      apply bind_Return_inv in Hrun as (? & _ & Hrun).
      apply bind_Return_inv in Hrun as (arr_u & _ & Hrun).
      apply bind_Return_inv in Hrun as (arr_ex & _ & Hrun).
      apply bind_Return_inv in Hrun as (diff & _ & Hrun).
      apply bind_Return_inv in Hrun as (E' & _ & [= _ <-]).
      eexists f, _. split_and!; try done. intros l f' Hl. by apply lookup_heap_old.
    + unfold error_L2 in Hrun. by rewrite deref_dangling in Hrun.
Qed.

End EvaluatorsMore.

(** ** Equal coefficients, and NaN coefficients *)

Lemma foldl_fixed (op : float -> float -> float) (z : float) (l : list float) :
  op z z = z -> Forall (eq z) l -> foldl op z l = z.
Proof.
  intros Hz. induction 1 as [|y l <- _ IH]; simpl; [done|]. by rewrite Hz.
Qed.

Lemma absolute_diag_finite (a : list float) :
  Forall finite a ->
  np.absolute (zip_with PrimFloat.sub a a) = replicate (length a) 0%float.
Proof.
  induction 1 as [|x a Hx _ IH]; [done|].
  unfold np.absolute in *. cbn [zip_with fmap list_fmap length replicate].
  rewrite (sub_diag_finite x Hx). f_equal. exact IH.
Qed.

Lemma local_max_error_diag (a : list float) :
  a <> [] -> Forall finite a -> local_max_error a a = Return 0%float.
Proof.
  intros Hne Hfin. unfold local_max_error, np.subtract.
  rewrite broadcast2_same_shape by done. rewrite outcome_bind_Return.
  rewrite (absolute_diag_finite a Hfin).
  destruct a as [|x a]; [done|]. simpl. f_equal.
  apply foldl_fixed; [reflexivity|]. apply Forall_forall.
  by intros y [-> _]%elem_of_replicate.
Qed.

Lemma on_ranks_constant {A : Type} (d : A) (c : Comm) (f : nat -> outcome A) (z : A) :
  (forall r, r <= comm_last c -> f r = Return z) ->
  exists v, on_ranks d c f = Return v /\ forall r, r <= comm_last c -> v r = z.
Proof.
  intros Hf. destruct (on_ranks_total d c f) as [v Hv]; [by eauto|].
  exists v. split; [done|]. intros r Hr.
  pose proof (on_ranks_Return d c f v Hv r Hr) as Hvr.
  rewrite (Hf r Hr) in Hvr. by injection Hvr.
Qed.

Section EqualAndNaN.

Context `{Libm} `{Dolfinx}.

(** X9.  When the interpolant of the exact solution has, on every rank, the
    very coefficients of [u_h], all of them finite, [error_infinity]
    returns exactly [0]. *)
Theorem error_infinity_zero (h : heap) (u_h : loc) (f : Function) (u_ex : pyval)
    (arr : dist (list float)) :
  let V := function_space f in
  h !! u_h = Some f ->
  fem_interpolate V (interpolation_source V u_ex) = Return arr ->
  (forall r, r <= comm_last (mesh_comm (fs_mesh V)) ->
     arr r = x_array f r /\ x_array f r <> [] /\ Forall finite (x_array f r)) ->
  error_infinity u_h u_ex h
  = Return (0%float, h ++ [{| function_space := V; x_array := arr |}]).
Proof.
  intros V Hf Harr Hsame.
  rewrite (error_infinity_eq h u_h f u_ex Hf). fold V. rewrite Harr.
  rewrite outcome_bind_Return. unfold infinity_value. fold V.
  destruct (on_ranks_constant 0%float (mesh_comm (fs_mesh V))
              (fun r => local_max_error (x_array f r) (arr r)) 0%float)
    as (v & -> & Hv).
  { intros r Hr. destruct (Hsame r Hr) as (-> & Hne & Hfin).
    by apply local_max_error_diag. }
  rewrite outcome_bind_Return, allreduce_fold, (Hv 0) by lia.
  rewrite outcome_bind_Return. do 2 f_equal.
  apply foldl_fixed; [reflexivity|].
  apply Forall_fmap, Forall_forall. intros r Hr%elem_of_seq. simpl.
  symmetry. apply Hv. lia.
Qed.

(** X10.  In a serial run (one rank), with coefficient arrays of one
    length, a NaN among the coefficient differences makes [error_infinity]
    return a NaN: [np.max] does not skip it. *)
Theorem error_infinity_nan (h : heap) (u_h : loc) (f : Function) (u_ex : pyval)
    (arr : dist (list float)) (i : nat) (a b : float) :
  let V := function_space f in
  comm_last (mesh_comm (fs_mesh V)) = 0 ->
  h !! u_h = Some f ->
  fem_interpolate V (interpolation_source V u_ex) = Return arr ->
  length (x_array f 0) = length (arr 0) ->
  x_array f 0 !! i = Some a -> arr 0 !! i = Some b ->
  is_nan (a - b) = true ->
  exists m,
    error_infinity u_h u_ex h
      = Return (m, h ++ [{| function_space := V; x_array := arr |}]) /\
    is_nan m = true.
Proof.
  intros V Hserial Hf Harr Hlen Ha Hb Hnan.
  rewrite (error_infinity_eq h u_h f u_ex Hf). fold V. rewrite Harr.
  rewrite outcome_bind_Return. unfold infinity_value. fold V.
  unfold on_ranks, comm_ranks, MPI.allreduce. rewrite Hserial. simpl.
  unfold local_max_error, np.subtract.
  rewrite broadcast2_same_shape by done. rewrite outcome_bind_Return.
  assert (Hd : np.absolute (zip_with PrimFloat.sub (x_array f 0) (arr 0)) !! i
               = Some (abs (a - b))).
  { unfold np.absolute. rewrite list_lookup_fmap, lookup_zip_with, Ha, Hb. done. }
  destruct (np.absolute _) as [|d ds] eqn:Hds; [done|]. simpl.
  eexists. split; [done|].
  apply foldl_maximum_nan. exists (abs (a - b)).
  split; [by eapply list_elem_of_lookup_2|]. by rewrite is_nan_abs.
Qed.

(** X11.  In a serial run (one rank), when neither [u_h] nor the
    interpolant has a coefficient, [np.max] has nothing to reduce and
    [error_infinity] ends with its [ValueError]. *)
Theorem error_infinity_no_coefficients (h : heap) (u_h : loc) (f : Function)
    (u_ex : pyval) (arr : dist (list float)) :
  let V := function_space f in
  comm_last (mesh_comm (fs_mesh V)) = 0 ->
  h !! u_h = Some f ->
  fem_interpolate V (interpolation_source V u_ex) = Return arr ->
  x_array f 0 = [] -> arr 0 = [] ->
  error_infinity u_h u_ex h = Raise ValueError.
Proof.
  intros V Hserial Hf Harr Hf0 Harr0.
  apply (error_infinity_empty_rank h u_h f u_ex arr 0 Hf Harr); [lia|done|done].
Qed.

End EqualAndNaN.

(** ** The study loops *)

Section StudyLoops.

Context `{Libm} `{Dolfinx}.

Variable solve : Z -> Z -> Py (loc * ufl_expr).
Variable evaluate : loc -> pyval -> Py float.
Variable degree : Z.

(** X12. Whatever solver and evaluator the loop is run with: when it
    returns, [Es] and [hs] have one entry for each entry of [Ns], in the
    order of [Ns]; entry [i] of [hs] is [1 / float(Ns[i])], and [float(Ns[i])]
    is not zero. *)
Theorem study_loop_mesh_sizes (Ns : list Z) (h : heap) (Es hs : list float) (h' : heap) :
  study_loop solve evaluate degree Ns h = Return ((Es, hs), h') ->
  length Es = length Ns /\ length hs = length Ns /\
  forall i N, Ns !! i = Some N ->
    exists fN, py_float N = Return fN /\ (fN =? 0)%float = false /\
               hs !! i = Some (1 / fN)%float.
Proof.
  intros Hrun.
  apply (study_loop_entries solve evaluate degree Ns (fun _ _ => True)) in Hrun
    as (HlE & Hlh & Hentries);
    [|done].
  split_and!; try done.
  intros i N HN. destruct (Hentries i N HN) as (E & fN & _ & _ & HfN & Hnz & Hhs).
  by exists fN.
Qed.

Lemma setitem_in_range (a : list float) (i : nat) (v : float) :
  i < length a -> setitem a i v = Return (<[i := v]> a).
Proof. intros Hi. unfold setitem. by rewrite decide_True. Qed.

(** One pass fails exactly in one of the ways of [pass_fails], its
    indices being in range. *)
Lemma study_body_Raise (Ns : list Z) (Es hs : list float) (i : nat) (N : Z)
    (h : heap) (e : exn) :
  i < length Es -> i < length hs -> Ns !! i = Some N ->
  study_body solve evaluate degree Ns (Es, hs) (i, N) h = Raise e <->
  pass_fails solve evaluate degree N h e.
Proof.
  intros HiE Hih HN. unfold study_body, pass_fails.
  unfold mbind at 1, Py_bind at 1.
  destruct (solve N degree h) as [[[uh ue] h1]|e0].
  2:{ split; [intros [= ->]; by left|]. by intros [[= ->]|(? & ? & ? & [=] & _)]. }
  unfold mbind at 1, Py_bind at 1.
  destruct (evaluate uh (PyCallable u_numpy) h1) as [[E h2]|e0] eqn:Heval.
  2:{ split.
      - intros [= ->]. right. exists uh, ue, h1. split; [done|]. by left.
      - intros [[=]|(? & ? & ? & [= <- <- <-] & Hfail)]. rewrite Heval in Hfail.
        by destruct Hfail as [[= ->]|(? & ? & [=] & _)]. }
  rewrite (setitem_in_range Es i E HiE).
  rewrite Py_bind_lift, outcome_bind_Return. unfold getitem. rewrite HN.
  rewrite Py_bind_lift, outcome_bind_Return, Py_bind_lift.
  assert (Hover : forall e', py_float N = Raise e' -> e' = OverflowError).
  { unfold py_float. destruct (is_infinity _); [by intros e' [= <-]|done]. }
  destruct (py_float N) as [fN|e0] eqn:HfN;
    rewrite ?outcome_bind_Return, ?outcome_bind_Raise.
  2:{ rewrite (Hover e0 eq_refl). split.
      - intros [= <-]. right. exists uh, ue, h1. split; [done|]. right.
        exists E, h2. split; [done|]. by left.
      - intros [[=]|(? & ? & ? & [= <- <- <-] & Hfail)]. rewrite Heval in Hfail.
        destruct Hfail as [[=]|(? & ? & _ & [[-> _]|[_ (? & [=] & _)]])]. done. }
  rewrite Py_bind_lift. unfold py_truediv.
  destruct (fN =? 0)%float eqn:Hz;
    rewrite ?outcome_bind_Return, ?outcome_bind_Raise.
  - split.
    + intros [= <-]. right. exists uh, ue, h1. split; [done|]. right.
      exists E, h2. split; [done|]. right. split; [done|]. by exists fN.
    + intros [[=]|(? & ? & ? & [= <- <- <-] & Hfail)]. rewrite Heval in Hfail.
      by destruct Hfail as [[=]|(? & ? & _ & [[_ [=]]|[-> _]])].
  - rewrite (setitem_in_range hs i _ Hih).
    rewrite Py_bind_lift, outcome_bind_Return. split; [done|].
    intros [[=]|(? & ? & ? & [= <- <- <-] & Hfail)]. rewrite Heval in Hfail.
    destruct Hfail as [[=]|(? & ? & _ & [[_ [=]]|[_ (? & [= <-] & Hz')]])].
    congruence.
Qed.

(** A loop keeps the lengths of [Es] and [hs], whatever it runs over. *)
Lemma study_for_each_lengths (Ns : list Z) (l : list (nat * Z)) :
  forall (Es0 hs0 : list float) (h : heap) (Es hs : list float) (h' : heap),
    for_each l (study_body solve evaluate degree Ns) (Es0, hs0) h
      = Return ((Es, hs), h') ->
    length Es = length Es0 /\ length hs = length hs0.
Proof.
  induction l as [|[i N] l IH]; intros Es0 hs0 h Es hs h' Hrun.
  - by injection Hrun as <- <- <-.
  - simpl in Hrun.
    apply Py_bind_Return_inv in Hrun as ([Es1 hs1] & h1 & Hbody & Hrun).
    apply study_body_Return in Hbody
      as (_ & _ & _ & E & _ & fNi & _ & _ & _ & -> & _ & _ & _ & _ & ->).
    apply IH in Hrun as [-> ->]. by rewrite !length_insert.
Qed.

Lemma study_loop_from_Raise (Ns : list Z) :
  forall (xs : list Z) (k : nat) (Es0 hs0 : list float) (h : heap) (e : exn),
    (forall j x, xs !! j = Some x -> Ns !! (k + j) = Some x) ->
    k + length xs <= length Es0 -> k + length xs <= length hs0 ->
    for_each (imap (fun j x => (k + j, x)) xs)
      (study_body solve evaluate degree Ns) (Es0, hs0) h = Raise e ->
    exists j N st h_j,
      xs !! j = Some N /\
      for_each (take j (imap (fun j x => (k + j, x)) xs))
        (study_body solve evaluate degree Ns) (Es0, hs0) h = Return (st, h_j) /\
      pass_fails solve evaluate degree N h_j e.
Proof.
  intros xs. induction xs as [|x xs IH]; intros k Es0 hs0 h e HNs HlE Hlh Hrun;
    [done|].
  cbn [imap for_each] in Hrun. simpl in HlE, Hlh.
  pose proof (HNs 0 x eq_refl) as Hx.
  apply Py_bind_Raise_inv in Hrun as [Hbody|([Es1 hs1] & h1 & Hbody & Hrun)].
  - apply study_body_Raise in Hbody; [|lia|lia|done].
    by exists 0, x, (Es0, hs0), h.
  - pose proof Hbody as Hlen.
    apply study_body_Return in Hlen
      as (_ & _ & _ & E & _ & fNi & _ & _ & _ & -> & _ & _ & _ & _ & ->).
    rewrite (imap_ext _ (fun j x => (S k + j, x))) in Hrun
      by (intros j y _; simpl; f_equal; lia).
    apply IH in Hrun as (j & N & st & h_j & HN & Hpre & Hfail).
    2:{ intros j y Hj. replace (S k + j) with (k + S j) by lia. by apply HNs. }
    2,3: rewrite length_insert; lia.
    exists (S j), N, st, h_j. split_and!; [done| |done].
    cbn [imap take for_each].
    rewrite (imap_ext _ (fun j x => (S k + j, x)))
      by (intros ? y _; simpl; f_equal; lia).
    unfold mbind at 1, Py_bind at 1. by rewrite Hbody.
Qed.

Lemma for_each_app {A S : Type} (xs ys : list A) (body : S -> A -> Py S) (s : S)
    (h : heap) :
  for_each (xs ++ ys) body s h = (s' ← for_each xs body s; for_each ys body s') h.
Proof.
  revert s h. induction xs as [|x xs IH]; intros s h; [done|].
  cbn [app for_each]. unfold mbind, Py_bind.
  destruct (body s x h) as [[s1 h1]|e]; [|done]. apply IH.
Qed.

(** X13. No retries and no failure of the loop's own: the loop ends with
    an exception exactly when, the passes before it having returned, one
    pass for an entry [Ns[i]] ends with it, raised by the solver, by the
    evaluator called on the solver's result, or as the [OverflowError] or
    [ZeroDivisionError] of [1./Ns[i]]; the indexing of [Es], [hs] and [Ns]
    never fails. *)
Theorem study_loop_failure (Ns : list Z) (h : heap) (e : exn) :
  study_loop solve evaluate degree Ns h = Raise e <->
  exists (i : nat) (N : Z) (st : list float * list float) (h_i : heap),
    Ns !! i = Some N /\
    for_each (take i (enumerate Ns)) (study_body solve evaluate degree Ns)
      (np.zeros (length Ns), np.zeros (length Ns)) h = Return (st, h_i) /\
    pass_fails solve evaluate degree N h_i e.
Proof.
  unfold study_loop, enumerate.
  change (imap pair Ns) with (imap (fun j x => (0 + j, x)) Ns). split.
  - intros Hrun. apply study_loop_from_Raise in Hrun; try done.
    all: unfold np.zeros; rewrite length_replicate; simpl; lia.
  - intros (i & N & [Es hs] & h_i & HN & Hpre & Hfail).
    rewrite <- (take_drop_middle (imap (fun j x => (0 + j, x)) Ns) i (i, N))
      by (by rewrite list_lookup_imap, HN).
    rewrite for_each_app. unfold mbind at 1, Py_bind at 1. rewrite Hpre.
    cbn [for_each]. unfold mbind at 1, Py_bind at 1.
    apply study_for_each_lengths in Hpre as [HlE Hlh].
    unfold np.zeros in HlE, Hlh. rewrite length_replicate in HlE, Hlh.
    apply lookup_lt_Some in HN as Hi.
    apply (study_body_Raise Ns Es hs i N h_i e) in Hfail; [|lia|lia|done].
    by rewrite Hfail.
Qed.

End StudyLoops.

Section StudyCells.

Context `{Libm} `{Dolfinx}.

(** X14. The passes of a study are independent of one another: with an
    evaluator that only reads its argument, the error recorded for [Ns[i]]
    is the one a run of its own gives, in which [solve_poisson] starts from
    an empty heap and the evaluator is called on what it leaves.  The
    functions left by earlier passes change nothing. *)
Theorem study_loop_passes_independent (evaluate : loc -> pyval -> Py float)
    (degree : Z) (Ns : list Z) (h : heap) (Es hs : list float) (h' : heap) :
  reads_only_argument evaluate ->
  study_loop solve_poisson evaluate degree Ns h = Return ((Es, hs), h') ->
  forall i N, Ns !! i = Some N ->
    exists (f_bc f_uh : Function) (ret : ufl_expr) (E : float),
      solve_poisson N degree [] = Return ((1, ret), [f_bc; f_uh]) /\
      value_of (evaluate 1 (PyCallable u_numpy) [f_bc; f_uh]) = Return E /\
      Es !! i = Some E.
Proof.
  intros Hreads Hrun i N HN.
  destruct (study_loop_isolated evaluate degree Ns h Es hs h' Hreads Hrun)
    as (_ & _ & Hentries).
  destruct (Hentries i N HN) as (f_bc & f_uh & ret & E & fN & Hsolve & Heval & HE & _).
  by exists f_bc, f_uh, ret, E.
Qed.


End StudyCells.

(** ** The further properties on the bench *)

Section MoreOnBench.

#[local] Existing Instance Bench.libm.
#[local] Existing Instance Bench.dolfinx.

(** X4 on the bench: the solution for [N = 4], degree 1. *)
Lemma solve_poisson_effect_witness :
  exists (f_uh : Function) (h' : heap),
    h' !! 1 = Some f_uh /\ length h' = 2 /\
    fs_family (function_space f_uh) = "CG"%string /\
    fs_degree (function_space f_uh) = 1%Z.
Proof.
  destruct (solve_poisson 4 1 []) as [[[uh ret] h']|e] eqn:Hrun;
    [|vm_compute in Hrun; discriminate].
  destruct (solve_poisson_effect [] 4 1 uh ret h' Hrun)
    as (mesh & f_bc & f_uh & facets & dofs & _ & Hh & Huh & _ & HV & _).
  exists f_uh, h'. rewrite Hh. split_and!; [done|done|by rewrite HV..].
Defined.

(** X5 on the bench: no mesh of zero cells. *)
Lemma solve_poisson_failure_witness : poisson_failure 0 1 RuntimeError.
Proof.
  apply (proj1 (solve_poisson_failure [] 0 1 RuntimeError)). vm_compute. reflexivity.
Defined.

(** X6 on the bench. *)
Lemma error_L2_not_negative_witness :
  exists (E : float) (h' : heap),
    error_L2 0 (PyCallable u_numpy) 3 [Bench.uh2] = Return (E, h') /\
    (E <? 0)%float = false.
Proof.
  destruct (error_L2 0 (PyCallable u_numpy) 3 [Bench.uh2]) as [[E h']|e] eqn:Hrun;
    [|vm_compute in Hrun; discriminate].
  exists E, h'. split; [reflexivity|].
  exact (error_L2_not_negative [Bench.uh2] 0 (PyCallable u_numpy) 3 E h' Hrun).
Defined.

(** X7 on the bench. *)
Lemma error_infinity_is_a_difference_witness :
  exists (m : float) (r : nat) (a b : float),
    value_of (error_infinity 0 (PyCallable u_numpy) [Bench.uh2]) = Return m /\
    a ∈ x_array Bench.uh2 r /\ m = abs (a - b) /\ (m <? 0)%float = false.
Proof.
  destruct (error_infinity 0 (PyCallable u_numpy) [Bench.uh2]) as [[m h']|e] eqn:Hrun;
    [|vm_compute in Hrun; discriminate].
  destruct (error_infinity_is_a_difference [Bench.uh2] 0 (PyCallable u_numpy) m h' Hrun)
    as (f & arr & r & a & b & [= <-] & _ & _ & Ha & _ & Hm & Hpos).
  exists m, r, a, b. split_and!; [reflexivity|exact Ha|exact Hm|exact Hpos].
Defined.

(** X9 on the bench: the interpolant of [u_numpy] against itself. *)
Lemma error_infinity_zero_witness :
  value_of (error_infinity 0 (PyCallable u_numpy) [uh_exact2]) = Return 0%float.
Proof.
  assert (Harr : fem_interpolate Bench.space2
                   (interpolation_source Bench.space2 (PyCallable u_numpy))
                 = Return Bench.exact2) by (vm_compute; reflexivity).
  assert (Hsame : forall r, r <= 1 ->
            Bench.exact2 r = Bench.exact2 r /\ Bench.exact2 r <> [] /\
            Forall finite (Bench.exact2 r)).
  { intros [|[|r]] Hr; [| |lia].
    all: split_and!; [reflexivity|discriminate|].
    all: vm_compute; repeat constructor. }
  rewrite (error_infinity_zero [uh_exact2] 0 uh_exact2 (PyCallable u_numpy) Bench.exact2
             eq_refl Harr Hsame).
  reflexivity.
Defined.

(** X10 on one rank: a NaN among the coefficients of [u_h]. *)
Lemma error_infinity_nan_witness :
  exists m, value_of (error_infinity 0 (PyCallable u_numpy) [Serial.uh_nan]) = Return m /\
            is_nan m = true.
Proof.
  assert (Harr : fem_interpolate Serial.space1
                   (interpolation_source Serial.space1 (PyCallable u_numpy))
                 = Return Serial.exact1) by (vm_compute; reflexivity).
  destruct (error_infinity_nan [Serial.uh_nan] 0 Serial.uh_nan (PyCallable u_numpy)
              Serial.exact1 0 nan 1%float eq_refl eq_refl Harr eq_refl eq_refl eq_refl
              eq_refl)
    as (m & Hrun & Hnan).
  exists m. rewrite Hrun. split; [reflexivity|exact Hnan].
Defined.

(** X11 on one rank: a function without coefficients. *)
Lemma error_infinity_no_coefficients_witness :
  error_infinity 0 Serial.no_values [Serial.uh_empty] = Raise ValueError.
Proof.
  assert (Harr : fem_interpolate Serial.space1
                   (interpolation_source Serial.space1 Serial.no_values)
                 = Return Serial.empty1) by (vm_compute; reflexivity).
  exact (error_infinity_no_coefficients [Serial.uh_empty] 0 Serial.uh_empty
           Serial.no_values Serial.empty1 eq_refl eq_refl Harr eq_refl eq_refl).
Defined.

(** X12 on the bench: the mesh sizes of the first study. *)
Lemma study_loop_mesh_sizes_witness :
  exists (Es hs : list float) (h' : heap),
    study_loop solve_poisson error_infinity 1 Ns [] = Return ((Es, hs), h') /\
    length Es = 5 /\ hs !! 2 = Some 0.0625%float.
Proof.
  destruct (study_loop solve_poisson error_infinity 1 Ns []) as [[[Es hs] h']|e] eqn:Hrun;
    [|vm_compute in Hrun; discriminate].
  destruct (study_loop_mesh_sizes solve_poisson error_infinity 1 Ns [] Es hs h' Hrun)
    as (HlE & _ & Hhs).
  destruct (Hhs 2 16%Z eq_refl) as (fN & [= <-] & _ & Hh).
  exists Es, hs, h'. split_and!; [reflexivity|exact HlE|exact Hh].
Defined.

(** X13 on the bench: with a zero among the [Ns], the pass for it ends
    with the solver's exception, and so does the loop. *)
Lemma study_loop_failure_witness :
  exists (i : nat) (N : Z) (st : list float * list float) (h_i : heap),
    [2; 0]%Z !! i = Some N /\
    for_each (take i (enumerate [2; 0]%Z))
      (study_body solve_poisson error_infinity 1 [2; 0]%Z)
      (np.zeros 2, np.zeros 2) [] = Return (st, h_i) /\
    pass_fails solve_poisson error_infinity 1 N h_i RuntimeError.
Proof.
  apply (proj1 (study_loop_failure solve_poisson error_infinity 1 [2; 0]%Z []
                  RuntimeError)).
  vm_compute. reflexivity.
Defined.

(** X14 on the bench: entry 1 of the first study is the error of a run of
    its own for [N = 8]. *)
Lemma study_loop_passes_independent_witness :
  exists (Es hs : list float) (h' : heap) (f_bc f_uh : Function) (ret : ufl_expr)
         (E : float),
    study_loop solve_poisson error_infinity 1 Ns [] = Return ((Es, hs), h') /\
    solve_poisson 8 1 [] = Return ((1, ret), [f_bc; f_uh]) /\
    value_of (error_infinity 1 (PyCallable u_numpy) [f_bc; f_uh]) = Return E /\
    Es !! 1 = Some E.
Proof.
  destruct (study_loop solve_poisson error_infinity 1 Ns []) as [[[Es hs] h']|e] eqn:Hrun;
    [|vm_compute in Hrun; discriminate].
  destruct (study_loop_passes_independent error_infinity 1 Ns [] Es hs h'
              error_infinity_reads_only_argument Hrun 1 8%Z eq_refl)
    as (f_bc & f_uh & ret & E & Hsolve & Heval & HE).
  exists Es, hs, h', f_bc, f_uh, ret, E. split_and!; done.
Defined.

End MoreOnBench.
